(** * Invoice generator: a shallow embedding of [src/app/invoice-generator.tsx]

    The component keeps its state in six React hooks (four header strings, the
    list of line items and the list of toasts).  Around them sit the host's
    services: the [uuid] generator, the timer queue behind [setTimeout], and
    the files written by [jsPDF.save].  Everything is modelled by explicit
    state passing over one record, [World].

    - a JavaScript [number] is an IEEE 754 binary64 value: [float];
    - a JavaScript string is a [string]; its characters stand for the code
      units 0..255;
    - arrays are lists; [map], [filter] and [reduce] are [List.map],
      [List.filter] and [List.fold_left];
    - time is counted in whole milliseconds ([N]). *)

From Stdlib Require Import List String Ascii Bool NArith Lia.
From Stdlib Require Import Floats.
Import ListNotations.

Local Open Scope string_scope.
Local Open Scope list_scope.

(* Decimal literals such as 0.1 denote the nearest binary64 value, as in
   JavaScript. *)
#[local] Set Warnings "-inexact-float".

(** ** Data model *)

(** [interface LineItem] *)
Record LineItem : Type := mkLineItem {
  id : string;
  description : string;
  quantity : float;
  unitPrice : float
}.

(** [type: 'error' | 'success'] *)
Inductive ToastType : Type := error | success.

(** [interface Toast]; the fields carry a prefix because [id] is taken. *)
Record Toast : Type := mkToast {
  toast_id : string;
  toast_message : string;
  toast_type : ToastType
}.

(** ** Derived calculator *)

Section Calculator.
Local Open Scope float_scope.

(** The reducer of [calculateSubtotal]:
    [(sum, item) => sum + item.quantity * item.unitPrice]. *)
Definition subtotalStep (sum : float) (item : LineItem) : float :=
  sum + quantity item * unitPrice item.

(** [lineItems.reduce(subtotalStep, 0)] *)
Definition calculateSubtotal (lineItems : list LineItem) : float :=
  fold_left subtotalStep lineItems 0.

(** [calculateTotal]: the tax is a local of the function. *)
Definition calculateTotal (lineItems : list LineItem) : float :=
  let subtotal := calculateSubtotal lineItems in
  let tax := subtotal * 0.1 in
  subtotal + tax.

(** The tax has no function of its own in the source: both the page and
    the exporter write the expression [calculateSubtotal() * 0.1]. *)
Definition taxAmount (lineItems : list LineItem) : float :=
  calculateSubtotal lineItems * 0.1.

(** The row total written by the page and by the exporter,
    [item.quantity * item.unitPrice]. *)
Definition lineTotal (item : LineItem) : float :=
  quantity item * unitPrice item.

(** Summation as the spec writes it, [sum(xs)]: the terms are added from
    the left, starting from 0. *)
Definition sum (xs : list float) : float := fold_left add xs 0.
End Calculator.

(** ** Strings *)

(** The white space that [String.prototype.trim] strips, among the code
    units 0..255: TAB, LF, VT, FF, CR, SPACE and NBSP. *)
Definition isWhiteSpace (c : ascii) : bool :=
  let n := N_of_ascii c in
  (((9 <=? n) && (n <=? 13)) || (n =? 32) || (n =? 160))%N.

Fixpoint trimStart (s : string) : string :=
  match s with
  | EmptyString => EmptyString
  | String c rest => if isWhiteSpace c then trimStart rest else s
  end.

Fixpoint trimEnd (s : string) : string :=
  match s with
  | EmptyString => EmptyString
  | String c rest =>
      match trimEnd rest with
      | EmptyString => if isWhiteSpace c then EmptyString else String c EmptyString
      | kept => String c kept
      end
  end.

(** [s.trim()] *)
Definition trim (s : string) : string := trimEnd (trimStart s).

(** [!s] for a string [s]: only the empty string is falsy. *)
Definition isFalsy (s : string) : bool :=
  match s with
  | EmptyString => true
  | String _ _ => false
  end.

(** ** The document under construction *)

Inductive Align : Type := center.

(** The calls made on a [jsPDF] object, in the order they are made. *)
Inductive DocOp : Type :=
| setFontSize (size : float)
| text (content : string) (x y : float) (align : option Align)
| autoTable (startY : float) (head body : list (list string)).

Definition jsPDF : Type := list DocOp.

(** ** The host *)

(** What the component takes from its libraries and from the language:
    - [uuidv4 n] is the value of the [n]-th call of [uuidv4()];
    - [toFixed x d] is [x.toFixed(d)] and [numberToString x] is [x.toString()];
    - [lastAutoTableFinalY doc] is [doc.lastAutoTable.finalY], the height at
      which the last table drawn on [doc] ends. *)
Record Host : Type := mkHost {
  uuidv4 : nat -> string;
  toFixed : float -> nat -> string;
  numberToString : float -> string;
  lastAutoTableFinalY : jsPDF -> float
}.

(** ** The state *)

(** What the component sends out: a file handed to the browser by
    [doc.save], or a toast put on screen by [showToast]. *)
Inductive Emission : Type :=
| fileSaved (name : string) (doc : jsPDF)
| toastShown (toast : Toast).

(** The six [useState] cells of the component, followed by the state of
    the host: the number of ids handed out, the clock, the callbacks
    registered with [setTimeout] that have not run yet (each with the time at
    which it is due and the [id] its closure captured), the files saved, and
    the record of what the component sent out, call by call. *)
Record World : Type := mkWorld {
  companyName : string;
  customerName : string;
  invoiceNumber : string;
  invoiceDate : string;
  lineItems : list LineItem;
  toasts : list Toast;
  uuidCalls : nat;
  clock : N;
  timers : list (N * string);
  downloads : list (string * jsPDF);
  emissions : list Emission
}.

(** [useState('')], [useState([])]; nothing has happened in the host. *)
Definition initialWorld : World :=
  mkWorld "" "" "" "" [] [] 0 0%N [] [] [].

Definition setCompanyName (v : string) (w : World) : World :=
  mkWorld v (customerName w) (invoiceNumber w) (invoiceDate w) (lineItems w)
    (toasts w) (uuidCalls w) (clock w) (timers w) (downloads w) (emissions w).

Definition setCustomerName (v : string) (w : World) : World :=
  mkWorld (companyName w) v (invoiceNumber w) (invoiceDate w) (lineItems w)
    (toasts w) (uuidCalls w) (clock w) (timers w) (downloads w) (emissions w).

Definition setInvoiceNumber (v : string) (w : World) : World :=
  mkWorld (companyName w) (customerName w) v (invoiceDate w) (lineItems w)
    (toasts w) (uuidCalls w) (clock w) (timers w) (downloads w) (emissions w).

Definition setInvoiceDate (v : string) (w : World) : World :=
  mkWorld (companyName w) (customerName w) (invoiceNumber w) v (lineItems w)
    (toasts w) (uuidCalls w) (clock w) (timers w) (downloads w) (emissions w).

Definition setLineItems (v : list LineItem) (w : World) : World :=
  mkWorld (companyName w) (customerName w) (invoiceNumber w) (invoiceDate w) v
    (toasts w) (uuidCalls w) (clock w) (timers w) (downloads w) (emissions w).

(** [setToasts(prevToasts => f(prevToasts))] *)
Definition setToasts (f : list Toast -> list Toast) (w : World) : World :=
  mkWorld (companyName w) (customerName w) (invoiceNumber w) (invoiceDate w)
    (lineItems w) (f (toasts w)) (uuidCalls w) (clock w) (timers w)
    (downloads w) (emissions w).

(** ** A state monad over [World] *)

Definition M (A : Type) : Type := World -> A * World.

Definition ret {A : Type} (a : A) : M A := fun w => (a, w).

Definition bind {A B : Type} (m : M A) (k : A -> M B) : M B :=
  fun w => k (fst (m w)) (snd (m w)).

Definition get : M World := fun w => (w, w).

(** A handler that returns nothing. *)
Definition modify (f : World -> World) : M unit := fun w => (tt, f w).

Definition exec {A : Type} (m : M A) (w : World) : World := snd (m w).

Declare Scope m_scope.
Delimit Scope m_scope with M.
Notation "x <- m ;; k" := (bind m (fun x => k))
  (at level 61, m at next level, right associativity) : m_scope.
Notation "m ;; k" := (bind m (fun _ => k))
  (at level 61, right associativity) : m_scope.

(** ** The component *)

(** The arguments [field] and [value] of [updateLineItem].  [field] ranges
    over [keyof LineItem], which includes [id]; the pairs are those that
    respect the field types of [interface LineItem]. *)
Inductive FieldUpdate : Type :=
| SetId (value : string)
| SetDescription (value : string)
| SetQuantity (value : float)
| SetUnitPrice (value : float).

(** [{ ...item, [field]: value }] *)
Definition assignField (item : LineItem) (u : FieldUpdate) : LineItem :=
  match u with
  | SetId value => mkLineItem value (description item) (quantity item) (unitPrice item)
  | SetDescription value => mkLineItem (id item) value (quantity item) (unitPrice item)
  | SetQuantity value => mkLineItem (id item) (description item) value (unitPrice item)
  | SetUnitPrice value => mkLineItem (id item) (description item) (quantity item) value
  end.

Section Component.
Context (host : Host).
Local Open Scope m_scope.

(** A call of [uuidv4()]. *)
Definition uuid : M string := fun w =>
  (uuidv4 host (uuidCalls w),
   mkWorld (companyName w) (customerName w) (invoiceNumber w) (invoiceDate w)
     (lineItems w) (toasts w) (S (uuidCalls w)) (clock w) (timers w)
     (downloads w) (emissions w)).

(** [setTimeout(() => setToasts(prev => prev.filter(t => t.id !== id)), delay)]:
    the callback is due [delay] milliseconds from now.  Every callback
    the component registers has this shape, so a pending callback is kept
    as its due time and the [id] it closes over. *)
Definition setTimeout (capturedId : string) (delay : N) : M unit :=
  modify (fun w =>
    mkWorld (companyName w) (customerName w) (invoiceNumber w) (invoiceDate w)
      (lineItems w) (toasts w) (uuidCalls w) (clock w)
      (timers w ++ [((clock w + delay)%N, capturedId)]) (downloads w)
      (emissions w)).

(** Notes what has just been sent out, after what was sent out before. *)
Definition emit (sent : Emission) : M unit :=
  modify (fun w =>
    mkWorld (companyName w) (customerName w) (invoiceNumber w) (invoiceDate w)
      (lineItems w) (toasts w) (uuidCalls w) (clock w) (timers w) (downloads w)
      (emissions w ++ [sent])).

(** [doc.save(name)] *)
Definition save (doc : jsPDF) (name : string) : M unit :=
  modify (fun w =>
    mkWorld (companyName w) (customerName w) (invoiceNumber w) (invoiceDate w)
      (lineItems w) (toasts w) (uuidCalls w) (clock w) (timers w)
      (downloads w ++ [(name, doc)]) (emissions w)) ;;
  emit (fileSaved name doc).

Definition addLineItem : M unit :=
  newId <- uuid ;;
  w <- get ;;
  modify (setLineItems (lineItems w ++ [mkLineItem newId "" 0%float 0%float])).

Definition updateLineItem (id0 : string) (u : FieldUpdate) : M unit :=
  w <- get ;;
  modify (setLineItems
    (map (fun item => if id item =? id0 then assignField item u else item)
         (lineItems w))).

Definition removeLineItem (id0 : string) : M unit :=
  w <- get ;;
  modify (setLineItems
    (filter (fun item => negb (id item =? id0)) (lineItems w))).

Definition showToast (message : string) (type : ToastType) : M unit :=
  id0 <- uuid ;;
  modify (setToasts (fun prevToasts => prevToasts ++ [mkToast id0 message type])) ;;
  emit (toastShown (mkToast id0 message type)) ;;
  setTimeout id0 5000.

(** The body of [for (const item of lineItems)] in [validateForm]. *)
Fixpoint validateItems (items : list LineItem) : M bool :=
  match items with
  | [] => ret true
  | item :: rest =>
      if isFalsy (trim (description item)) then
        showToast "All items must have a description" error ;; ret false
      else if (quantity item <=? 0)%float then
        showToast "All items must have a quantity greater than 0" error ;; ret false
      else if (unitPrice item <? 0)%float then
        showToast "All items must have a unit price of 0 or greater" error ;; ret false
      else validateItems rest
  end.

Definition validateForm : M bool :=
  w <- get ;;
  if isFalsy (trim (companyName w)) then
    showToast "Company name is required" error ;; ret false
  else if isFalsy (trim (customerName w)) then
    showToast "Customer name is required" error ;; ret false
  else if isFalsy (trim (invoiceNumber w)) then
    showToast "Invoice number is required" error ;; ret false
  else if isFalsy (invoiceDate w) then
    showToast "Invoice date is required" error ;; ret false
  else if Nat.eqb (List.length (lineItems w)) 0 then
    showToast "At least one item is required" error ;; ret false
  else validateItems (lineItems w).

(** The document that [handleDownload] builds between [new jsPDF()] and
    [doc.save]. *)
Definition renderInvoice (w : World) : jsPDF :=
  let doc : jsPDF := [] in
  let doc := doc ++ [setFontSize 20] in
  let doc := doc ++ [text "Invoice" 105 20 (Some center)] in
  let doc := doc ++ [setFontSize 12] in
  let doc := doc ++ [text ("Company: " ++ companyName w)%string 20 40 None] in
  let doc := doc ++ [text ("Customer: " ++ customerName w)%string 20 50 None] in
  let doc := doc ++ [text ("Invoice Number: " ++ invoiceNumber w)%string 20 60 None] in
  let doc := doc ++ [text ("Date: " ++ invoiceDate w)%string 20 70 None] in
  let tableData :=
    map (fun item =>
           [ description item;
             numberToString host (quantity item);
             ("$" ++ toFixed host (unitPrice item) 2)%string;
             ("$" ++ toFixed host (quantity item * unitPrice item)%float 2)%string ])
        (lineItems w) in
  let doc :=
    doc ++ [autoTable 80 [["Description"; "Quantity"; "Unit Price"; "Total"]]
                      tableData] in
  let finalY := (lastAutoTableFinalY host doc + 10)%float in
  let doc :=
    doc ++ [text ("Subtotal: $" ++ toFixed host (calculateSubtotal (lineItems w)) 2)%string
                 140 finalY None] in
  let doc :=
    doc ++ [text ("Tax (10%): $"
                  ++ toFixed host (calculateSubtotal (lineItems w) * 0.1)%float 2)%string
                 140 (finalY + 10)%float None] in
  let doc :=
    doc ++ [text ("Total: $" ++ toFixed host (calculateTotal (lineItems w)) 2)%string
                 140 (finalY + 20)%float None] in
  doc.

Definition handleDownload : M unit :=
  valid <- validateForm ;;
  if negb valid then ret tt
  else
    w <- get ;;
    save (renderInvoice w) "invoice.pdf" ;;
    showToast "Invoice generated successfully" success.

(** ** Timers *)

(** The callback registered by [showToast] for [capturedId]. *)
Definition expire (capturedId : string) (w : World) : World :=
  setToasts (filter (fun toast => negb (toast_id toast =? capturedId))) w.

(** [ms] milliseconds pass with no input.  The callbacks that fall due
    run, in the order they were registered (all have the same delay, so this
    is also the order of their due times); the others stay pending. *)
Definition elapse (ms : N) (w : World) : World :=
  let t := (clock w + ms)%N in
  let due := filter (fun timer => (fst timer <=? t)%N) (timers w) in
  let pending := filter (fun timer => negb (fst timer <=? t)%N) (timers w) in
  fold_left (fun w' timer => expire (snd timer) w') due
    (mkWorld (companyName w) (customerName w) (invoiceNumber w) (invoiceDate w)
       (lineItems w) (toasts w) (uuidCalls w) t pending (downloads w)
       (emissions w)).

(** ** Events *)

(** What can happen to the mounted component: an edit of one of the four
    header inputs, a press of "Add Item", an edit of a row, a press of a
    row's bin, a press of "Generate Invoice", or the passing of time. *)
Inductive Event : Type :=
| EditCompanyName (v : string)
| EditCustomerName (v : string)
| EditInvoiceNumber (v : string)
| EditInvoiceDate (v : string)
| AddLineItem
| UpdateLineItem (id0 : string) (u : FieldUpdate)
| RemoveLineItem (id0 : string)
| Download
| Elapse (ms : N).

Definition react (e : Event) (w : World) : World :=
  match e with
  | EditCompanyName v => setCompanyName v w
  | EditCustomerName v => setCustomerName v w
  | EditInvoiceNumber v => setInvoiceNumber v w
  | EditInvoiceDate v => setInvoiceDate v w
  | AddLineItem => exec addLineItem w
  | UpdateLineItem id0 u => exec (updateLineItem id0 u) w
  | RemoveLineItem id0 => exec (removeLineItem id0) w
  | Download => exec handleDownload w
  | Elapse ms => elapse ms w
  end.

Definition run (events : list Event) (w : World) : World :=
  fold_left (fun w' e => react e w') events w.

End Component.

(** ** The Validator as the spec words it

    A second definition, written from the spec's list of rules and not from
    [validateForm]: each rule says what must hold, and carries the message
    reported when it does not. *)

Definition Rule : Type := (bool * string)%type.

(** Rules 1 to 5: the header and the presence of an item. *)
Definition headerRules (w : World) : list Rule :=
  [ (negb (isFalsy (trim (companyName w))), "Company name is required");
    (negb (isFalsy (trim (customerName w))), "Customer name is required");
    (negb (isFalsy (trim (invoiceNumber w))), "Invoice number is required");
    (negb (isFalsy (invoiceDate w)), "Invoice date is required");
    (negb (Nat.eqb (List.length (lineItems w)) 0), "At least one item is required") ].

(** Rule 6, for one item: description trimmed non-empty, quantity > 0,
    unitPrice >= 0. *)
Definition itemRules (item : LineItem) : list Rule :=
  [ (negb (isFalsy (trim (description item))), "All items must have a description");
    ((0 <? quantity item)%float, "All items must have a quantity greater than 0");
    ((0 <=? unitPrice item)%float, "All items must have a unit price of 0 or greater") ].

(** All the rules, in the fixed order. *)
Definition rules (w : World) : list Rule :=
  headerRules w ++ flat_map itemRules (lineItems w).

(** The message of the first rule that does not hold, if there is one. *)
Fixpoint firstFailure (rs : list Rule) : option string :=
  match rs with
  | [] => None
  | (holds, message) :: rest => if holds then firstFailure rest else Some message
  end.

(** The same rules with the two numeric ones read as the negations of the
    tests that [validateForm] makes. *)
Definition itemRulesTested (item : LineItem) : list Rule :=
  [ (negb (isFalsy (trim (description item))), "All items must have a description");
    (negb (quantity item <=? 0)%float, "All items must have a quantity greater than 0");
    (negb (unitPrice item <? 0)%float, "All items must have a unit price of 0 or greater") ].

Definition rulesTested (w : World) : list Rule :=
  headerRules w ++ flat_map itemRulesTested (lineItems w).

(** The outcome of a validation that chose [outcome]: valid and silent, or
    invalid with one error toast carrying the message. *)
Definition reported (host : Host) (w : World) (outcome : option string)
  : bool * World :=
  match outcome with
  | None => (true, w)
  | Some message => (false, exec (showToast host message error) w)
  end.

(** ** Auxiliary notions for the statements *)

(** [uuidv4] never returns the same id twice. *)
Definition freshIds (host : Host) : Prop :=
  forall m n : nat, uuidv4 host m = uuidv4 host n -> m = n.

(** The numbers that the page writes into a row are [Number(e.target.value)]
    for an input of type number, whose value is a valid floating-point number
    or empty: such a number is never NaN. *)
Definition entersNumber (e : Event) : bool :=
  match e with
  | UpdateLineItem _ (SetQuantity value)
  | UpdateLineItem _ (SetUnitPrice value) => negb (is_nan value)
  | _ => true
  end.

(** No quantity and no unit price is NaN. *)
Definition numbersAreNumbers (items : list LineItem) : Prop :=
  Forall (fun item => is_nan (quantity item) = false /\
                      is_nan (unitPrice item) = false) items.

(** [KeepsOrder kept all]: [kept] is [all] with some elements left out, the
    others in their original order. *)
Inductive KeepsOrder {A : Type} : list A -> list A -> Prop :=
| KeepsOrder_nil : KeepsOrder [] []
| KeepsOrder_take x kept all : KeepsOrder kept all -> KeepsOrder (x :: kept) (x :: all)
| KeepsOrder_drop x kept all : KeepsOrder kept all -> KeepsOrder kept (x :: all).

(** The events that do not write to the [id] field of an item: all but
    [updateLineItem(_, 'id', _)].  The page issues no other. *)
Definition leavesIds (e : Event) : bool :=
  match e with
  | UpdateLineItem _ (SetId _) => false
  | _ => true
  end.

(** [s] is one of the ids that [uuidv4] has returned so far. *)
Definition issued (host : Host) (w : World) (s : string) : Prop :=
  exists k : nat, k < uuidCalls w /\ s = uuidv4 host k.

(** The ids of the rows are unique and all come from [uuidv4]. *)
Definition rowIdsSound (host : Host) (w : World) : Prop :=
  NoDup (map id (lineItems w)) /\
  forall s : string, In s (map id (lineItems w)) -> issued host w s.

(** The ids of the toasts and of the pending callbacks all come from
    [uuidv4]. *)
Definition toastIdsSound (host : Host) (w : World) : Prop :=
  (forall toast, In toast (toasts w) -> issued host w (toast_id toast)) /\
  (forall timer, In timer (timers w) -> issued host w (snd timer)).

(** What a run of callbacks leaves of a list of toasts. *)
Definition expired (due : list (N * string)) (shown : list Toast) : list Toast :=
  fold_left
    (fun kept timer => filter (fun toast => negb (toast_id toast =? snd timer)) kept)
    due shown.

(** The life of the toast that was handed the [k]-th id and is due at
    [deadline]: before the deadline it is on screen and its one callback is
    pending; from the deadline on no toast has its id. *)
Definition lifeOf (host : Host) (k : nat) (deadline : N) (toast : Toast)
  (w : World) : Prop :=
  k < uuidCalls w /\
  if (clock w <? deadline)%N then
    In toast (toasts w) /\
    In (deadline, uuidv4 host k) (timers w) /\
    (forall due, In (due, uuidv4 host k) (timers w) -> due = deadline)
  else
    ~ In (uuidv4 host k) (map toast_id (toasts w)).

(** A state [w'] that differs from [w] by one more toast, shown as
    [showToast] shows it. *)
Definition pushedFrom (host : Host) (w w' : World) : Prop :=
  uuidCalls w' = S (uuidCalls w) /\
  clock w' = clock w /\
  exists message type,
    toasts w' = toasts w ++ [mkToast (uuidv4 host (uuidCalls w)) message type] /\
    timers w' = timers w ++ [((clock w + 5000)%N, uuidv4 host (uuidCalls w))].

(** A state [w'] with the queue, the callbacks and the clock of [w]. *)
Definition quietFrom (w w' : World) : Prop :=
  uuidCalls w <= uuidCalls w' /\
  clock w' = clock w /\ toasts w' = toasts w /\ timers w' = timers w.

(** ** A host for the examples *)

(** The ids are u, uu, uuu, ...: pairwise distinct, as those of [uuidv4]. *)
Fixpoint sampleUuid (n : nat) : string :=
  match n with
  | O => "u"
  | S k => String "u" (sampleUuid k)
  end.

(** The examples do not read the formatted numbers: the two formatters
    print a placeholder, and every table ends at height 100. *)
Definition sampleHost : Host :=
  mkHost sampleUuid (fun _ _ => "#") (fun _ => "#") (fun _ => 100%float).

(** A complete header and one row whose quantity is NaN. *)
Definition nanQuantity : World :=
  mkWorld "Acme" "Bob" "INV-001" "2024-01-01"
    [mkLineItem "u" "Widget" nan 10%float] [] 1 0%N [] [] [].

(** An untouched form but for the date: company and customer are missing. *)
Definition namesMissing : World :=
  mkWorld "" "  " "INV-001" "2024-01-01" [] [] 0 0%N [] [] [].

(** Scenario A of the spec. *)
Definition scenarioA : World :=
  mkWorld "Acme" "Bob" "INV-001" "2024-01-01"
    [mkLineItem "u" "Widget" 2%float 10%float] [] 1 0%N [] [] [].

(** ** The page *)

(** What [InvoiceGenerator] returns, reduced to the data that the markup
    carries: the values of the four header inputs; for each row its key, the
    values of its three inputs and the text of its total cell; the three
    paragraphs of totals; and for each toast its key, its class and its
    text. *)
Record RowView : Type := mkRowView {
  row_key : string;
  row_description : string;
  row_quantity : float;
  row_unitPrice : float;
  row_total : string
}.

Record ToastView : Type := mkToastView {
  toast_key : string;
  toast_className : string;
  toast_text : string
}.

Record Page : Type := mkPage {
  page_companyName : string;
  page_customerName : string;
  page_invoiceNumber : string;
  page_invoiceDate : string;
  page_rows : list RowView;
  page_subtotal : string;
  page_tax : string;
  page_total : string;
  page_toasts : list ToastView
}.

Definition renderPage (host : Host) (w : World) : Page :=
  mkPage (companyName w) (customerName w) (invoiceNumber w) (invoiceDate w)
    (map (fun item =>
            mkRowView (id item) (description item) (quantity item) (unitPrice item)
              ("$" ++ toFixed host (quantity item * unitPrice item)%float 2)%string)
         (lineItems w))
    ("Subtotal: $" ++ toFixed host (calculateSubtotal (lineItems w)) 2)%string
    ("Tax (10%): $" ++ toFixed host (calculateSubtotal (lineItems w) * 0.1)%float 2)%string
    ("Total: $" ++ toFixed host (calculateTotal (lineItems w)) 2)%string
    (map (fun toast =>
            mkToastView (toast_id toast)
              ("mb-2 p-2 rounded-md text-white "
               ++ match toast_type toast with
                  | error => "bg-red-500"
                  | success => "bg-green-500"
                  end)%string
              (toast_message toast))
         (toasts w)).

(** ** Further notions for the statements *)

(** The tests that a row must pass in [validateForm]. *)
Definition itemPasses (item : LineItem) : Prop :=
  isFalsy (trim (description item)) = false /\
  (quantity item <=? 0)%float = false /\
  (unitPrice item <? 0)%float = false.

(** The tests that the whole form must pass in [validateForm]. *)
Definition formPasses (w : World) : Prop :=
  isFalsy (trim (companyName w)) = false /\
  isFalsy (trim (customerName w)) = false /\
  isFalsy (trim (invoiceNumber w)) = false /\
  isFalsy (invoiceDate w) = false /\
  lineItems w <> [] /\
  Forall itemPasses (lineItems w).

(** The update writes the field [id]. *)
Definition writesId (u : FieldUpdate) : bool :=
  match u with
  | SetId _ => true
  | _ => false
  end.

(** The update writes one of the two numeric fields. *)
Definition writesAmount (u : FieldUpdate) : bool :=
  match u with
  | SetQuantity _ | SetUnitPrice _ => true
  | _ => false
  end.

(** Two updates write the same field. *)
Definition sameField (u1 u2 : FieldUpdate) : bool :=
  match u1, u2 with
  | SetId _, SetId _ => true
  | SetDescription _, SetDescription _ => true
  | SetQuantity _, SetQuantity _ => true
  | SetUnitPrice _, SetUnitPrice _ => true
  | _, _ => false
  end.

(** The header and the rows of a state. *)
Definition draft (w : World) : string * string * string * string * list LineItem :=
  (companyName w, customerName w, invoiceNumber w, invoiceDate w, lineItems w).

(** Every toast on screen has a pending callback for its id, due within
    5000 ms. *)
Definition toastsTimed (w : World) : Prop :=
  forall toast, In toast (toasts w) ->
    exists due : N,
      In (due, toast_id toast) (timers w) /\ (due <= clock w + 5000)%N.

(** The ids of the toasts on screen are pairwise distinct and all come from
    [uuidv4]. *)
Definition toastKeysSound (host : Host) (w : World) : Prop :=
  NoDup (map toast_id (toasts w)) /\
  forall toast, In toast (toasts w) -> issued host w (toast_id toast).

(** Every saved file is called invoice.pdf and holds the document of a state
    that passed [validateForm]. *)
Definition savedFromValid (host : Host) (w : World) : Prop :=
  forall name doc, In (name, doc) (downloads w) ->
    name = "invoice.pdf" /\
    exists w0 : World,
      fst (validateForm host w0) = true /\ doc = renderInvoice host w0.

(** The pending callbacks are those of the toasts on screen, one for one
    and in the same order, and no id occurs twice among them. *)
Definition timersMatchToasts (host : Host) (w : World) : Prop :=
  map snd (timers w) = map toast_id (toasts w) /\
  NoDup (map snd (timers w)) /\
  forall timer, In timer (timers w) -> issued host w (snd timer).

(** A toast is spared by a run of callbacks when none of them carries its
    id. *)
Definition spared (due : list (N * string)) (toast : Toast) : bool :=
  negb (existsb (fun timer => toast_id toast =? snd timer) due).

(** * Properties *)

(** ** Strings *)

Example trim_inner : trim "  Acme Ltd " = "Acme Ltd".
Proof. reflexivity. Qed.

Example trim_blank : isFalsy (trim "   ") = true.
Proof. reflexivity. Qed.

(** [trim] leaves nothing exactly when every character is white space. *)
Lemma trimStart_empty (s : string) :
  trimStart s = "" <-> forallb isWhiteSpace (list_ascii_of_string s) = true.
Proof.
  induction s as [|c s IH]; simpl.
  - tauto.
  - destruct (isWhiteSpace c); simpl; [exact IH|].
    split; intro H; discriminate H.
Qed.

Lemma trimEnd_empty (s : string) :
  trimEnd s = "" <-> forallb isWhiteSpace (list_ascii_of_string s) = true.
Proof.
  induction s as [|c s IH]; simpl.
  - tauto.
  - destruct (trimEnd s) eqn:rest.
    + destruct (isWhiteSpace c); simpl.
      * split; [intros _; apply IH; reflexivity | reflexivity].
      * split; intro H; discriminate H.
    + split; [intro H; discriminate H|].
      intro H. apply andb_true_iff in H as [_ H]. apply IH in H. discriminate H.
Qed.

(** ** Derived calculator *)

Lemma fold_subtotalStep (items : list LineItem) (acc : float) :
  fold_left subtotalStep items acc =
  fold_left add (map (fun item => (quantity item * unitPrice item)%float) items) acc.
Proof.
  revert acc. induction items as [|item items IH]; intro acc; simpl.
  - reflexivity.
  - apply IH.
Qed.

(** C1. The subtotal of any sequence of line items is the sum, taken from
    the left and starting at 0, of the products quantity * unitPrice of the
    items, that is, of their line totals; the subtotal of the empty sequence
    is 0. *)
Theorem calculateSubtotal_sum :
  (forall items : list LineItem,
     calculateSubtotal items =
     sum (map (fun item => (quantity item * unitPrice item)%float) items)) /\
  (forall items : list LineItem,
     calculateSubtotal items = sum (map lineTotal items)) /\
  calculateSubtotal [] = 0%float.
Proof.
  assert (products : forall items : list LineItem,
            calculateSubtotal items =
            sum (map (fun item => (quantity item * unitPrice item)%float) items)).
  { intro items. unfold calculateSubtotal, sum. apply fold_subtotalStep. }
  split; [exact products|]. split; [exact products | reflexivity].
Qed.

Lemma calculateSubtotal_snoc (items : list LineItem) (item : LineItem) :
  calculateSubtotal (items ++ [item]) =
  (calculateSubtotal items + quantity item * unitPrice item)%float.
Proof.
  unfold calculateSubtotal. rewrite fold_left_app. reflexivity.
Qed.

Example scenarioA_amounts :
  calculateSubtotal (lineItems scenarioA) = 20%float /\
  taxAmount (lineItems scenarioA) = 2%float /\
  calculateTotal (lineItems scenarioA) = 22%float.
Proof. repeat split; reflexivity. Qed.

(** Floating-point addition rounds: thirty cents are not 0.3. *)
Example subtotal_rounds :
  calculateSubtotal [mkLineItem "a" "" 1%float 0.1%float;
                     mkLineItem "b" "" 1%float 0.2%float]
  = 0.30000000000000004%float.
Proof. reflexivity. Qed.

(** C3. For any sequence of line items the tax is the subtotal times 0.1
    and the total is the subtotal plus the tax; these are the amounts that
    the exporter prints, in this order, at the end of the document. *)
Theorem tax_and_total :
  forall (host : Host) (w : World),
    let items := lineItems w in
    taxAmount items = (calculateSubtotal items * 0.1)%float /\
    calculateTotal items = (calculateSubtotal items + taxAmount items)%float /\
    exists (above : jsPDF) (finalY : float),
      renderInvoice host w =
      above ++
      [ text ("Subtotal: $" ++ toFixed host (calculateSubtotal items) 2)%string
             140%float finalY None;
        text ("Tax (10%): $" ++ toFixed host (taxAmount items) 2)%string
             140%float (finalY + 10)%float None;
        text ("Total: $" ++ toFixed host (calculateSubtotal items + taxAmount items) 2)%string
             140%float (finalY + 20)%float None ].
Proof.
  intros host w items. split; [reflexivity|]. split; [reflexivity|].
  unfold renderInvoice.
  match goal with
  | |- context [lastAutoTableFinalY host ?d] =>
      exists d, (lastAutoTableFinalY host d + 10)%float
  end.
  rewrite <- !app_assoc. reflexivity.
Qed.

(** ** Form state store *)

Lemma world_eta (w : World) :
  mkWorld (companyName w) (customerName w) (invoiceNumber w) (invoiceDate w)
    (lineItems w) (toasts w) (uuidCalls w) (clock w) (timers w) (downloads w)
    (emissions w) = w.
Proof. destruct w; reflexivity. Qed.

Lemma setLineItems_same (w : World) : setLineItems (lineItems w) w = w.
Proof. apply world_eta. Qed.

Lemma lineItems_updateLineItem (id0 : string) (u : FieldUpdate) (w : World) :
  lineItems (exec (updateLineItem id0 u) w) =
  map (fun item => if id item =? id0 then assignField item u else item) (lineItems w).
Proof. reflexivity. Qed.

Lemma lineItems_removeLineItem (id0 : string) (w : World) :
  lineItems (exec (removeLineItem id0) w) =
  filter (fun item => negb (id item =? id0)) (lineItems w).
Proof. reflexivity. Qed.

Lemma map_absent_id (id0 : string) (u : FieldUpdate) (items : list LineItem) :
  (forall item, In item items -> id item <> id0) ->
  map (fun item => if id item =? id0 then assignField item u else item) items = items.
Proof.
  induction items as [|item items IH]; intro absent; simpl.
  - reflexivity.
  - destruct (String.eqb_spec (id item) id0) as [hit|_].
    + exfalso. apply (absent item); [left; reflexivity | exact hit].
    + f_equal. apply IH. intros other Hin. apply absent. right. exact Hin.
Qed.

Lemma filter_absent_id (id0 : string) (items : list LineItem) :
  (forall item, In item items -> id item <> id0) ->
  filter (fun item => negb (id item =? id0)) items = items.
Proof.
  induction items as [|item items IH]; intro absent; simpl.
  - reflexivity.
  - destruct (String.eqb_spec (id item) id0) as [hit|_]; simpl.
    + exfalso. apply (absent item); [left; reflexivity | exact hit].
    + f_equal. apply IH. intros other Hin. apply absent. right. exact Hin.
Qed.

(** C5. When no item carries the id, [updateLineItem] leaves the whole
    state as it was.  Otherwise the list keeps its shape: at every position
    an item with another id is unchanged, and an item with the id has the
    named field replaced by the value and its other three fields kept.
    Nothing outside the list changes. *)
Theorem updateLineItem_frame :
  forall (w : World) (id0 : string) (u : FieldUpdate),
    let w' := exec (updateLineItem id0 u) w in
    ((forall item, In item (lineItems w) -> id item <> id0) -> w' = w) /\
    (forall n : nat,
       nth_error (lineItems w') n =
       option_map (fun item => if id item =? id0 then assignField item u else item)
                  (nth_error (lineItems w) n)) /\
    (forall item : LineItem,
       match u with
       | SetId value =>
           assignField item u =
           mkLineItem value (description item) (quantity item) (unitPrice item)
       | SetDescription value =>
           assignField item u =
           mkLineItem (id item) value (quantity item) (unitPrice item)
       | SetQuantity value =>
           assignField item u =
           mkLineItem (id item) (description item) value (unitPrice item)
       | SetUnitPrice value =>
           assignField item u =
           mkLineItem (id item) (description item) (quantity item) value
       end) /\
    w' = setLineItems (lineItems w') w.
Proof.
  intros w id0 u w'. repeat split.
  - intro absent. subst w'. unfold exec, updateLineItem, bind, get, modify. simpl.
    rewrite (map_absent_id id0 u (lineItems w) absent). apply setLineItems_same.
  - intro n. subst w'. rewrite lineItems_updateLineItem. apply nth_error_map.
  - intro item. destruct u; reflexivity.
Qed.

Example updateLineItem_second_row :
  lineItems (exec (updateLineItem "b" (SetQuantity 3%float))
               (setLineItems [mkLineItem "a" "Nut" 1%float 2%float;
                              mkLineItem "b" "Bolt" 1%float 5%float;
                              mkLineItem "c" "Gear" 4%float 1%float] initialWorld))
  = [mkLineItem "a" "Nut" 1%float 2%float;
     mkLineItem "b" "Bolt" 3%float 5%float;
     mkLineItem "c" "Gear" 4%float 1%float].
Proof. reflexivity. Qed.

(** C10. [updateLineItem] never changes the number of line items. *)
Theorem updateLineItem_length :
  forall (w : World) (id0 : string) (u : FieldUpdate),
    List.length (lineItems (exec (updateLineItem id0 u) w)) = List.length (lineItems w).
Proof.
  intros w id0 u. rewrite lineItems_updateLineItem. apply length_map.
Qed.

Lemma filter_KeepsOrder {A : Type} (keep : A -> bool) (l : list A) :
  KeepsOrder (filter keep l) l.
Proof.
  induction l as [|x l IH]; simpl.
  - constructor.
  - destruct (keep x); constructor; exact IH.
Qed.

(** C6. [removeLineItem] keeps exactly the items whose id differs from the
    given one, in their original order; when no item carries the id the whole
    state is as it was; and when exactly one item carries it, the list is the
    old one with that item cut out.  Nothing outside the list changes. *)
Theorem removeLineItem_spec :
  forall (w : World) (id0 : string),
    let w' := exec (removeLineItem id0) w in
    (forall item, In item (lineItems w') <-> In item (lineItems w) /\ id item <> id0) /\
    KeepsOrder (lineItems w') (lineItems w) /\
    ((forall item, In item (lineItems w) -> id item <> id0) -> w' = w) /\
    (forall before item after,
       lineItems w = before ++ item :: after ->
       id item = id0 ->
       (forall other, In other (before ++ after) -> id other <> id0) ->
       lineItems w' = before ++ after) /\
    w' = setLineItems (lineItems w') w.
Proof.
  intros w id0 w'. subst w'. rewrite lineItems_removeLineItem. repeat split.
  - apply filter_In in H. tauto.
  - apply filter_In in H as [_ H]. intro same.
    apply (proj2 (String.eqb_eq _ _)) in same. rewrite same in H. discriminate.
  - intros [Hin Hne]. apply filter_In. split; [exact Hin|].
    apply negb_true_iff. apply String.eqb_neq. exact Hne.
  - apply filter_KeepsOrder.
  - intro absent. unfold exec, removeLineItem, bind, get, modify. simpl.
    rewrite (filter_absent_id id0 (lineItems w) absent). apply setLineItems_same.
  - intros before item after shape hit others. rewrite shape.
    rewrite filter_app. simpl.
    rewrite (proj2 (String.eqb_eq _ _) hit). simpl.
    rewrite <- filter_app. apply filter_absent_id. exact others.
Qed.

Example removeLineItem_middle :
  lineItems (exec (removeLineItem "b")
               (setLineItems [mkLineItem "a" "Nut" 1%float 2%float;
                              mkLineItem "b" "Bolt" 1%float 5%float;
                              mkLineItem "c" "Gear" 4%float 1%float] initialWorld))
  = [mkLineItem "a" "Nut" 1%float 2%float; mkLineItem "c" "Gear" 4%float 1%float].
Proof. reflexivity. Qed.

(** ** Validator *)

Section ValidatorFacts.
Context (host : Host).

Lemma validateItems_firstFailure (items : list LineItem) (w : World) :
  validateItems host items w =
  reported host w (firstFailure (flat_map itemRulesTested items)).
Proof.
  induction items as [|item items IH]; simpl.
  - reflexivity.
  - destruct (isFalsy (trim (description item))); simpl; [reflexivity|].
    destruct (quantity item <=? 0)%float; simpl; [reflexivity|].
    destruct (unitPrice item <? 0)%float; simpl; [reflexivity|].
    exact IH.
Qed.

(** [validateForm] reports the first rule, in the fixed order, whose test
    fails, and nothing else. *)
Lemma validateForm_firstFailure_tested (w : World) :
  validateForm host w = reported host w (firstFailure (rulesTested w)).
Proof.
  unfold validateForm, rulesTested, headerRules, bind, get. simpl.
  destruct (isFalsy (trim (companyName w))); simpl; [reflexivity|].
  destruct (isFalsy (trim (customerName w))); simpl; [reflexivity|].
  destruct (isFalsy (trim (invoiceNumber w))); simpl; [reflexivity|].
  destruct (isFalsy (invoiceDate w)); simpl; [reflexivity|].
  destruct (Nat.eqb (List.length (lineItems w)) 0); simpl; [reflexivity|].
  apply validateItems_firstFailure.
Qed.
End ValidatorFacts.

(** On numbers other than NaN the tests of [validateForm] are the
    negations of the spec's rules. *)
Lemma not_leb_zero (x : float) :
  is_nan x = false -> negb (x <=? 0)%float = (0 <? x)%float.
Proof.
  unfold is_nan. rewrite eqb_spec, leb_spec, ltb_spec.
  change (Prim2SF 0) with (S754_zero false).
  destruct (Prim2SF x) as [s|s| |s m e]; simpl; try discriminate;
    intros _; destruct s; reflexivity.
Qed.

Lemma not_ltb_zero (x : float) :
  is_nan x = false -> negb (x <? 0)%float = (0 <=? x)%float.
Proof.
  unfold is_nan. rewrite eqb_spec, leb_spec, ltb_spec.
  change (Prim2SF 0) with (S754_zero false).
  destruct (Prim2SF x) as [s|s| |s m e]; simpl; try discriminate;
    intros _; destruct s; reflexivity.
Qed.

Lemma itemRules_tested (items : list LineItem) :
  numbersAreNumbers items ->
  flat_map itemRulesTested items = flat_map itemRules items.
Proof.
  induction 1 as [|item items [Hq Hp] _ IH]; simpl.
  - reflexivity.
  - rewrite (not_leb_zero _ Hq), (not_ltb_zero _ Hp), IH. reflexivity.
Qed.

(** Away from NaN, [validateForm] reports exactly the first failing rule of
    the spec's list: it answers [true] and shows nothing when every rule
    holds, and otherwise answers [false] and shows one error toast, with the
    message of the first rule that fails. *)
Lemma validateForm_firstFailure (host : Host) (w : World) :
  numbersAreNumbers (lineItems w) ->
  validateForm host w = reported host w (firstFailure (rules w)).
Proof.
  intro numbers. rewrite validateForm_firstFailure_tested.
  unfold rulesTested, rules. rewrite (itemRules_tested _ numbers). reflexivity.
Qed.

(** With company and customer both missing, the reason is the company's. *)
Example namesMissing_reason :
  forall host : Host,
    fst (validateForm host namesMissing) = false /\
    toasts (snd (validateForm host namesMissing)) =
    [mkToast (uuidv4 host 0) "Company name is required" error].
Proof. intro host. split; reflexivity. Qed.

(** Scenarios B and C of the spec. *)
Example scenarioB_reason :
  forall host : Host,
    map toast_message
        (toasts (exec (validateForm host) (setLineItems [] scenarioA)))
    = ["At least one item is required"].
Proof. intro host. reflexivity. Qed.

Example scenarioC_reason :
  forall host : Host,
    map toast_message
        (toasts (exec (validateForm host)
                   (setLineItems [mkLineItem "u" "Widget" 0%float 10%float] scenarioA)))
    = ["All items must have a quantity greater than 0"].
Proof. intro host. reflexivity. Qed.

(** The restriction to numbers matters.  A row whose quantity is NaN, which
    no input of the page produces, breaks the rule "quantity > 0" and yet
    passes the test [quantity <= 0] of [validateForm]. *)
Example validateForm_passes_nan_quantity :
  firstFailure (rules nanQuantity) =
    Some "All items must have a quantity greater than 0" /\
  validateForm sampleHost nanQuantity = (true, nanQuantity) /\
  map fst (downloads (exec (handleDownload sampleHost) nanQuantity)) = ["invoice.pdf"].
Proof. repeat split. Qed.

(** ** Notification queue and exporter *)

Lemma sampleUuid_length (n : nat) : String.length (sampleUuid n) = S n.
Proof. induction n as [|n IH]; simpl; [reflexivity | now rewrite IH]. Qed.

Lemma sampleHost_freshIds : freshIds sampleHost.
Proof.
  intros m n same. apply (f_equal String.length) in same. simpl in same.
  rewrite !sampleUuid_length in same. now injection same.
Qed.

Lemma exec_showToast (host : Host) (message : string) (type : ToastType) (w : World) :
  exec (showToast host message type) w =
  mkWorld (companyName w) (customerName w) (invoiceNumber w) (invoiceDate w)
    (lineItems w)
    (toasts w ++ [mkToast (uuidv4 host (uuidCalls w)) message type])
    (S (uuidCalls w)) (clock w)
    (timers w ++ [((clock w + 5000)%N, uuidv4 host (uuidCalls w))])
    (downloads w)
    (emissions w ++ [toastShown (mkToast (uuidv4 host (uuidCalls w)) message type)]).
Proof. reflexivity. Qed.

Lemma exec_handleDownload (host : Host) (w : World) :
  exec (handleDownload host) w =
  let checked := snd (validateForm host w) in
  if fst (validateForm host w) then
    exec (showToast host "Invoice generated successfully" success)
      (exec (save (renderInvoice host checked) "invoice.pdf") checked)
  else checked.
Proof.
  unfold exec at 1. unfold handleDownload, bind. simpl.
  destruct (fst (validateForm host w)); reflexivity.
Qed.

Lemma validateForm_true (host : Host) (w : World) :
  fst (validateForm host w) = true -> validateForm host w = (true, w).
Proof.
  rewrite validateForm_firstFailure_tested.
  destruct (firstFailure (rulesTested w)); simpl; [discriminate | reflexivity].
Qed.

Lemma validateForm_false (host : Host) (w : World) :
  fst (validateForm host w) = false ->
  exists message : string,
    validateForm host w = (false, exec (showToast host message error) w).
Proof.
  rewrite validateForm_firstFailure_tested.
  destruct (firstFailure (rulesTested w)) as [message|]; simpl;
    [intros _; exists message; reflexivity | discriminate].
Qed.

(** C4. If validation fails, the export saves no file and shows no success
    toast: all it sends out is the validator's one error toast.  If validation
    succeeds, the export saves the document as invoice.pdf and shows one
    success toast, and of the two the file is sent out first. *)
Theorem handleDownload_outcomes :
  forall (host : Host) (w : World),
    let w' := exec (handleDownload host) w in
    (fst (validateForm host w) = false ->
       w' = exec (validateForm host) w /\
       downloads w' = downloads w /\
       exists message : string,
         toasts w' = toasts w ++ [mkToast (uuidv4 host (uuidCalls w)) message error] /\
         emissions w' =
           emissions w ++
           [toastShown (mkToast (uuidv4 host (uuidCalls w)) message error)]) /\
    (fst (validateForm host w) = true ->
       let saved := exec (save (renderInvoice host w) "invoice.pdf") w in
       downloads saved = downloads w ++ [("invoice.pdf", renderInvoice host w)] /\
       toasts saved = toasts w /\
       w' = exec (showToast host "Invoice generated successfully" success) saved /\
       downloads w' = downloads saved /\
       toasts w' =
         toasts w ++ [mkToast (uuidv4 host (uuidCalls w))
                              "Invoice generated successfully" success] /\
       emissions w' =
         emissions w ++
         [fileSaved "invoice.pdf" (renderInvoice host w);
          toastShown (mkToast (uuidv4 host (uuidCalls w))
                              "Invoice generated successfully" success)]).
Proof.
  intros host w w'. subst w'. rewrite exec_handleDownload. split; intro outcome.
  - destruct (validateForm_false host w outcome) as [message Hv].
    unfold exec. rewrite Hv. simpl.
    split; [reflexivity|]. split; [reflexivity|]. exists message.
    split; reflexivity.
  - rewrite (validateForm_true host w outcome). simpl.
    repeat split. rewrite <- app_assoc. reflexivity.
Qed.

Example scenarioA_export :
  forall host : Host,
    let w' := exec (handleDownload host) scenarioA in
    map fst (downloads w') = ["invoice.pdf"] /\
    toasts w' = [mkToast (uuidv4 host 1) "Invoice generated successfully" success].
Proof. intro host. split; reflexivity. Qed.

(** The document is a function of the header and the items alone. *)
Lemma renderInvoice_draft (host : Host) (w1 w2 : World) :
  companyName w1 = companyName w2 ->
  customerName w1 = customerName w2 ->
  invoiceNumber w1 = invoiceNumber w2 ->
  invoiceDate w1 = invoiceDate w2 ->
  lineItems w1 = lineItems w2 ->
  renderInvoice host w1 = renderInvoice host w2.
Proof.
  intros Hc Hu Hn Hd Hi. unfold renderInvoice. rewrite Hc, Hu, Hn, Hd, Hi.
  reflexivity.
Qed.

(** C9. From a valid state, two exports in a row save the same document
    twice under the name invoice.pdf and add two success toasts, each with
    its own id and its own timer; the header and the items are untouched. *)
Theorem handleDownload_twice :
  forall host : Host,
    freshIds host ->
    forall w : World,
      fst (validateForm host w) = true ->
      let once := exec (handleDownload host) w in
      let twice := exec (handleDownload host) once in
      let doc := renderInvoice host w in
      let id1 := uuidv4 host (uuidCalls w) in
      let id2 := uuidv4 host (S (uuidCalls w)) in
      renderInvoice host once = doc /\
      downloads twice = downloads w ++ [("invoice.pdf", doc); ("invoice.pdf", doc)] /\
      toasts twice =
        toasts w ++ [mkToast id1 "Invoice generated successfully" success;
                     mkToast id2 "Invoice generated successfully" success] /\
      id1 <> id2 /\
      timers twice = timers w ++ [((clock w + 5000)%N, id1); ((clock w + 5000)%N, id2)] /\
      (companyName twice, customerName twice, invoiceNumber twice,
       invoiceDate twice, lineItems twice) =
      (companyName w, customerName w, invoiceNumber w, invoiceDate w, lineItems w).
Proof.
  intros host fresh w valid once twice doc id1 id2.
  assert (Hone : once =
            exec (showToast host "Invoice generated successfully" success)
              (exec (save doc "invoice.pdf") w)).
  { subst once. rewrite exec_handleDownload, (validateForm_true host w valid).
    reflexivity. }
  assert (valid1 : validateForm host once = (true, once)).
  { apply validateForm_true. rewrite validateForm_firstFailure_tested.
    replace (rulesTested once) with (rulesTested w) by (rewrite Hone; reflexivity).
    rewrite validateForm_firstFailure_tested in valid.
    destruct (firstFailure (rulesTested w)); [discriminate valid | reflexivity]. }
  assert (Htwo : twice =
            exec (showToast host "Invoice generated successfully" success)
              (exec (save (renderInvoice host once) "invoice.pdf") once)).
  { subst twice. rewrite exec_handleDownload, valid1. reflexivity. }
  assert (Hdoc : renderInvoice host once = doc).
  { rewrite Hone. reflexivity. }
  split; [exact Hdoc|]. rewrite Htwo, Hdoc, Hone. simpl.
  rewrite <- !app_assoc. simpl. repeat split.
  intro same. exact (n_Sn _ (fresh _ _ same)).
Qed.

Lemma handleDownload_twice_scenarioA :
  freshIds sampleHost /\
  fst (validateForm sampleHost scenarioA) = true /\
  let twice :=
    exec (handleDownload sampleHost) (exec (handleDownload sampleHost) scenarioA) in
  let doc := renderInvoice sampleHost scenarioA in
  downloads twice = [("invoice.pdf", doc); ("invoice.pdf", doc)] /\
  toasts twice = [mkToast "uu" "Invoice generated successfully" success;
                  mkToast "uuu" "Invoice generated successfully" success].
Proof.
  split; [exact sampleHost_freshIds|]. split; [reflexivity|].
  pose proof (handleDownload_twice sampleHost sampleHost_freshIds scenarioA eq_refl)
    as twice_ok.
  cbv zeta in twice_ok. destruct twice_ok as (_ & saved & shown & _).
  split; [exact saved | exact shown].
Defined.

(** ** Reachable states *)

Lemma run_snoc (host : Host) (events : list Event) (e : Event) (w : World) :
  run host (events ++ [e]) w = react host e (run host events w).
Proof. unfold run. rewrite fold_left_app. reflexivity. Qed.

(** What an export does to the host and to the queue, whatever the
    verdict: one more id is taken, one toast is shown with that id, and one
    callback is registered for it. *)
Lemma handleDownload_effects (host : Host) (w : World) :
  let w' := exec (handleDownload host) w in
  lineItems w' = lineItems w /\
  uuidCalls w' = S (uuidCalls w) /\
  clock w' = clock w /\
  exists message type,
    toasts w' = toasts w ++ [mkToast (uuidv4 host (uuidCalls w)) message type] /\
    timers w' = timers w ++ [((clock w + 5000)%N, uuidv4 host (uuidCalls w))].
Proof.
  cbv zeta. rewrite exec_handleDownload, validateForm_firstFailure_tested.
  destruct (firstFailure (rulesTested w)) as [message|]; simpl.
  - repeat split. exists message, error. split; reflexivity.
  - repeat split. exists "Invoice generated successfully", success.
    split; reflexivity.
Qed.

Lemma fold_expire (due : list (N * string)) (w : World) :
  fold_left (fun w' timer => expire (snd timer) w') due w =
  setToasts (expired due) w.
Proof.
  revert w. induction due as [|timer due IH]; intro w; simpl.
  - unfold setToasts, expired. simpl. symmetry. apply world_eta.
  - rewrite IH. reflexivity.
Qed.

Lemma elapse_fields (ms : N) (w : World) :
  let t := (clock w + ms)%N in
  elapse ms w =
  mkWorld (companyName w) (customerName w) (invoiceNumber w) (invoiceDate w)
    (lineItems w)
    (expired (filter (fun timer => (fst timer <=? t)%N) (timers w)) (toasts w))
    (uuidCalls w) t
    (filter (fun timer => negb (fst timer <=? t)%N) (timers w))
    (downloads w) (emissions w).
Proof. cbv zeta. unfold elapse. rewrite fold_expire. reflexivity. Qed.

Lemma In_expired (due : list (N * string)) (shown : list Toast) (toast : Toast) :
  In toast (expired due shown) <->
  In toast shown /\ forall timer, In timer due -> toast_id toast <> snd timer.
Proof.
  revert shown. induction due as [|timer due IH]; intro shown; simpl.
  - unfold expired. simpl. split; [intro H; split; [exact H | intros ? []] | tauto].
  - unfold expired in *. simpl. rewrite IH, filter_In, negb_true_iff, String.eqb_neq.
    split.
    + intros [[Hin Hne] rest]. split; [exact Hin|].
      intros other [<-|Hother]; [exact Hne | apply rest; exact Hother].
    + intros [Hin all]. repeat split.
      * exact Hin.
      * apply all. left. reflexivity.
      * intros other Hother. apply all. right. exact Hother.
Qed.

(** ** Ids of the rows *)

Lemma issued_mono (host : Host) (w w' : World) (s : string) :
  uuidCalls w <= uuidCalls w' -> issued host w s -> issued host w' s.
Proof.
  intros Hle (k & Hk & ->). exists k. split; [lia | reflexivity].
Qed.

Lemma fresh_not_issued (host : Host) (w : World) :
  freshIds host -> ~ issued host w (uuidv4 host (uuidCalls w)).
Proof.
  intros fresh (k & Hk & same). apply fresh in same. lia.
Qed.

Lemma map_id_update (id0 : string) (u : FieldUpdate) (items : list LineItem) :
  (forall value, u <> SetId value) ->
  map id (map (fun item => if id item =? id0 then assignField item u else item) items)
  = map id items.
Proof.
  intro other. rewrite map_map. apply map_ext. intro item.
  destruct (id item =? id0); [|reflexivity].
  destruct u; try reflexivity. exfalso. exact (other value eq_refl).
Qed.

Lemma map_id_remove (id0 : string) (items : list LineItem) :
  map id (filter (fun item => negb (id item =? id0)) items)
  = filter (fun s => negb (s =? id0)) (map id items).
Proof.
  induction items as [|item items IH]; simpl; [reflexivity|].
  destruct (id item =? id0); simpl; [exact IH | now rewrite IH].
Qed.

(** How each event that leaves the [id] fields alone changes the list of
    row ids. *)
Lemma react_row_ids (host : Host) (e : Event) (w : World) :
  leavesIds e = true ->
  match e with
  | AddLineItem =>
      map id (lineItems (react host e w)) =
      map id (lineItems w) ++ [uuidv4 host (uuidCalls w)]
  | RemoveLineItem id0 =>
      map id (lineItems (react host e w)) =
      filter (fun s => negb (s =? id0)) (map id (lineItems w))
  | _ => map id (lineItems (react host e w)) = map id (lineItems w)
  end.
Proof.
  intro leaves. destruct e; simpl; try reflexivity.
  - apply map_app.
  - apply map_id_update. intros value ->. discriminate leaves.
  - apply map_id_remove.
  - f_equal. apply (handleDownload_effects host w).
  - rewrite elapse_fields. reflexivity.
Qed.

Lemma react_uuidCalls (host : Host) (e : Event) (w : World) :
  uuidCalls w <= uuidCalls (react host e w).
Proof.
  destruct e; simpl; try apply le_n.
  - apply le_S, le_n.
  - destruct (handleDownload_effects host w) as (_ & -> & _). apply le_S, le_n.
  - rewrite elapse_fields. apply le_n.
Qed.

Lemma rowIdsSound_react (host : Host) (e : Event) (w : World) :
  freshIds host -> leavesIds e = true ->
  rowIdsSound host w -> rowIdsSound host (react host e w).
Proof.
  intros fresh leaves [unique sound].
  pose proof (react_row_ids host e w leaves) as ids.
  pose proof (react_uuidCalls host e w) as calls.
  assert (kept : map id (lineItems (react host e w)) = map id (lineItems w) ->
                 rowIdsSound host (react host e w)).
  { intro same. split; rewrite same; [exact unique|].
    intros s Hs. apply (issued_mono host w); [exact calls | apply sound, Hs]. }
  destruct e; try (apply kept; exact ids).
  - split; rewrite ids.
    + apply NoDup_app; repeat split.
      * exact unique.
      * constructor; [intros [] | constructor].
      * intros s Hs [<-|[]]. apply (fresh_not_issued host w fresh), sound, Hs.
    + intros s Hs. apply in_app_or in Hs as [Hs|[<-|[]]].
      * apply (issued_mono host w); [exact calls | apply sound, Hs].
      * exists (uuidCalls w). split; [apply le_n | reflexivity].
  - split; rewrite ids.
    + apply NoDup_filter. exact unique.
    + intros s Hs. apply filter_In in Hs as [Hs _].
      apply (issued_mono host w); [exact calls | apply sound, Hs].
Qed.

Lemma rowIdsSound_run (host : Host) (events : list Event) :
  freshIds host ->
  Forall (fun e => leavesIds e = true) events ->
  rowIdsSound host (run host events initialWorld).
Proof.
  intros fresh. induction events as [|e events IH] using rev_ind; intro leave.
  - split; [constructor | intros s []].
  - apply Forall_app in leave as [leave last]. rewrite run_snoc.
    apply rowIdsSound_react; [exact fresh | now inversion last | apply IH, leave].
Qed.

(** C7, as the code has it.  Let [uuidv4] return no id twice, and let the
    rows be edited only in the fields description, quantity and unitPrice, as
    the page does.  Then in every state reached from the empty form no two
    rows share an id, and every further such event keeps the ids in place: an
    added row brings an id that no row has, a removal takes out the rows with
    the given id, and every other event leaves the list of ids as it is. *)
Theorem lineItem_ids_stable_unique :
  forall host : Host,
    freshIds host ->
    forall events : list Event,
      Forall (fun e => leavesIds e = true) events ->
      let w := run host events initialWorld in
      NoDup (map id (lineItems w)) /\
      forall e : Event,
        leavesIds e = true ->
        match e with
        | AddLineItem =>
            map id (lineItems (react host e w)) =
              map id (lineItems w) ++ [uuidv4 host (uuidCalls w)] /\
            ~ In (uuidv4 host (uuidCalls w)) (map id (lineItems w))
        | RemoveLineItem id0 =>
            map id (lineItems (react host e w)) =
              filter (fun s => negb (s =? id0)) (map id (lineItems w))
        | _ => map id (lineItems (react host e w)) = map id (lineItems w)
        end.
Proof.
  intros host fresh events leave w.
  destruct (rowIdsSound_run host events fresh leave) as [unique sound].
  split; [exact unique|]. intros e leaves.
  pose proof (react_row_ids host e w leaves) as ids.
  destruct e; try exact ids. split; [exact ids|].
  intro Hin. apply (fresh_not_issued host w fresh), sound, Hin.
Qed.

Lemma lineItem_ids_sample :
  freshIds sampleHost /\
  let events := [AddLineItem; UpdateLineItem "u" (SetQuantity 2%float);
                 AddLineItem; Download; RemoveLineItem "u"; AddLineItem] in
  Forall (fun e => leavesIds e = true) events /\
  NoDup (map id (lineItems (run sampleHost events initialWorld))).
Proof.
  split; [exact sampleHost_freshIds|]. cbv zeta.
  assert (leave : Forall (fun e => leavesIds e = true)
                    [AddLineItem; UpdateLineItem "u" (SetQuantity 2%float);
                     AddLineItem; Download; RemoveLineItem "u"; AddLineItem])
    by (repeat constructor).
  split; [exact leave|].
  exact (proj1 (lineItem_ids_stable_unique sampleHost sampleHost_freshIds _ leave)).
Defined.

(** C7, as the claim has it, fails: [updateLineItem] accepts the field
    [id].  After two additions, writing the second row's id into the first
    changes the id of an existing row and leaves two rows with one id. *)
Lemma setId_breaks_ids :
  freshIds sampleHost /\
  let w := run sampleHost [AddLineItem; AddLineItem] initialWorld in
  let w' := react sampleHost (UpdateLineItem "u" (SetId "uu")) w in
  map id (lineItems w) = ["u"; "uu"] /\
  map id (lineItems w') = ["uu"; "uu"] /\
  ~ NoDup (map id (lineItems w')).
Proof.
  split; [exact sampleHost_freshIds|]. cbv zeta.
  split; [reflexivity|]. split; [reflexivity|].
  intro unique. simpl in unique. inversion unique as [|s rest notin _].
  apply notin. left. reflexivity.
Qed.

(** ** Lifetime of a toast *)

Section Lifetime.
Context (host : Host) (fresh : freshIds host).

Lemma showToast_pushedFrom (message : string) (type : ToastType) (w : World) :
  pushedFrom host w (exec (showToast host message type) w).
Proof.
  repeat split. exists message, type. split; reflexivity.
Qed.

Lemma react_cases (e : Event) (w : World) :
  match e with
  | Download => pushedFrom host w (react host e w)
  | Elapse ms => react host e w = elapse ms w
  | _ => quietFrom w (react host e w)
  end.
Proof.
  destruct e; simpl; try (split; [apply le_n | repeat split]; fail).
  - split; [apply le_S, le_n | repeat split].
  - destruct (handleDownload_effects host w) as (_ & calls & time & shown).
    split; [exact calls|]. split; [exact time | exact shown].
  - reflexivity.
Qed.

Lemma toastIdsSound_quiet (w w' : World) :
  quietFrom w w' -> toastIdsSound host w -> toastIdsSound host w'.
Proof.
  intros (calls & _ & shown & pending) [Ht Hp]. split.
  - rewrite shown. intros toast Hin. apply (issued_mono host w); auto.
  - rewrite pending. intros timer Hin. apply (issued_mono host w); auto.
Qed.

Lemma toastIdsSound_pushed (w w' : World) :
  pushedFrom host w w' -> toastIdsSound host w -> toastIdsSound host w'.
Proof.
  intros (calls & _ & message & type & shown & pending) [Ht Hp].
  assert (newest : issued host w' (uuidv4 host (uuidCalls w))).
  { exists (uuidCalls w). rewrite calls. split; [apply le_n | reflexivity]. }
  assert (older : forall s, issued host w s -> issued host w' s).
  { intro s. apply issued_mono. rewrite calls. apply le_S, le_n. }
  split.
  - rewrite shown. intros toast Hin. apply in_app_or in Hin as [Hin|[<-|[]]];
      [apply older, Ht, Hin | exact newest].
  - rewrite pending. intros timer Hin. apply in_app_or in Hin as [Hin|[<-|[]]];
      [apply older, Hp, Hin | exact newest].
Qed.

Lemma toastIdsSound_elapse (ms : N) (w : World) :
  toastIdsSound host w -> toastIdsSound host (elapse ms w).
Proof.
  intros [Ht Hp]. rewrite elapse_fields. split; simpl.
  - intros toast Hin. apply In_expired in Hin as [Hin _].
    destruct (Ht toast Hin) as (k & Hk & same). exists k. split; assumption.
  - intros timer Hin. apply filter_In in Hin as [Hin _].
    destruct (Hp timer Hin) as (k & Hk & same). exists k. split; assumption.
Qed.

Lemma toastIdsSound_react (e : Event) (w : World) :
  toastIdsSound host w -> toastIdsSound host (react host e w).
Proof.
  intro sound. pose proof (react_cases e w) as shape.
  destruct e;
    try (apply (toastIdsSound_quiet w); [exact shape | exact sound]).
  - apply (toastIdsSound_pushed w); [exact shape | exact sound].
  - rewrite shape. apply toastIdsSound_elapse. exact sound.
Qed.

Lemma toastIdsSound_run (events : list Event) (w : World) :
  toastIdsSound host w -> toastIdsSound host (run host events w).
Proof.
  revert w. induction events as [|e events IH]; intros w sound; simpl.
  - exact sound.
  - apply IH, toastIdsSound_react, sound.
Qed.

Lemma toastIdsSound_initial : toastIdsSound host initialWorld.
Proof. split; intros ? []. Qed.

Section OneToast.
Context (k : nat) (deadline : N) (toast : Toast)
        (named : toast_id toast = uuidv4 host k).

Lemma lifeOf_quiet (w w' : World) :
  quietFrom w w' -> lifeOf host k deadline toast w ->
  lifeOf host k deadline toast w'.
Proof.
  intros (calls & time & shown & pending) [Hk life].
  unfold lifeOf. rewrite time, shown, pending. split; [lia | exact life].
Qed.

Lemma lifeOf_pushed (w w' : World) :
  pushedFrom host w w' -> lifeOf host k deadline toast w ->
  lifeOf host k deadline toast w'.
Proof.
  intros (calls & time & message & type & shown & pending) [Hk life].
  assert (other : uuidv4 host (uuidCalls w) <> uuidv4 host k).
  { intro same. apply fresh in same. lia. }
  unfold lifeOf. rewrite calls, time, shown, pending. split; [lia|].
  destruct (clock w <? deadline)%N.
  - destruct life as (on & due & only). repeat split.
    + apply in_or_app. left. exact on.
    + apply in_or_app. left. exact due.
    + intros d Hin. apply in_app_or in Hin as [Hin|[same|[]]].
      * apply only, Hin.
      * exfalso. apply other. now injection same.
  - rewrite map_app. intro Hin. apply in_app_or in Hin as [Hin|[same|[]]].
    + apply life, Hin.
    + apply other. exact same.
Qed.

Lemma lifeOf_elapse (ms : N) (w : World) :
  lifeOf host k deadline toast w ->
  lifeOf host k deadline toast (elapse ms w).
Proof.
  intros [Hk life]. unfold lifeOf. rewrite elapse_fields. simpl.
  split; [exact Hk|].
  destruct (N.ltb_spec (clock w) deadline) as [early|late];
    destruct (N.ltb_spec (clock w + ms) deadline) as [early'|late'].
  - destruct life as (on & due & only). repeat split.
    + apply In_expired. split; [exact on|].
      intros [d s] Hin same. simpl in same. subst s.
      apply filter_In in Hin as [Hin Hd]. simpl in Hd.
      rewrite named in Hin. apply only in Hin. apply N.leb_le in Hd. lia.
    + apply filter_In. split; [exact due|]. simpl.
      apply negb_true_iff, N.leb_gt. exact early'.
    + intros d Hin. apply filter_In in Hin as [Hin _]. apply only, Hin.
  - destruct life as (on & due & only).
    intro Hin. apply in_map_iff in Hin as (shown & same & Hin).
    apply In_expired in Hin as [_ spared].
    apply (spared (deadline, uuidv4 host k)); [|exact same].
    apply filter_In. split; [exact due|]. simpl. apply N.leb_le. exact late'.
  - lia.
  - intro Hin. apply in_map_iff in Hin as (shown & same & Hin).
    apply In_expired in Hin as [Hin _]. apply life.
    apply in_map_iff. exists shown. split; assumption.
Qed.

Lemma lifeOf_react (e : Event) (w : World) :
  lifeOf host k deadline toast w ->
  lifeOf host k deadline toast (react host e w).
Proof.
  intro life. pose proof (react_cases e w) as shape.
  destruct e; try (apply (lifeOf_quiet w); [exact shape | exact life]).
  - apply (lifeOf_pushed w); [exact shape | exact life].
  - rewrite shape. apply lifeOf_elapse. exact life.
Qed.

Lemma lifeOf_run (events : list Event) (w : World) :
  lifeOf host k deadline toast w ->
  lifeOf host k deadline toast (run host events w).
Proof.
  revert w. induction events as [|e events IH]; intros w life; simpl.
  - exact life.
  - apply IH, lifeOf_react, life.
Qed.

(** What [lifeOf] says about the screen. *)
Lemma lifeOf_screen (w : World) :
  lifeOf host k deadline toast w ->
  ((clock w < deadline)%N -> In toast (toasts w)) /\
  ((deadline <= clock w)%N -> ~ In (toast_id toast) (map toast_id (toasts w))).
Proof.
  intros [_ life]. rewrite named.
  destruct (N.ltb_spec (clock w) deadline) as [early|late]; split;
    try (intro; lia); intros _; [apply life | exact life].
Qed.
End OneToast.

(** A toast starts its life when [showToast] returns. *)
Lemma lifeOf_born (message : string) (type : ToastType) (w : World) :
  toastIdsSound host w ->
  lifeOf host (uuidCalls w) (clock w + 5000)
    (mkToast (uuidv4 host (uuidCalls w)) message type)
    (exec (showToast host message type) w).
Proof.
  intros [_ Hp]. split; [apply le_n|]. simpl.
  destruct (N.ltb_spec (clock w) (clock w + 5000)) as [_|late]; [|lia].
  repeat split.
  - apply in_or_app. right. left. reflexivity.
  - apply in_or_app. right. left. reflexivity.
  - intros d Hin. apply in_app_or in Hin as [Hin|[same|[]]].
    + exfalso. apply (fresh_not_issued host w fresh). exact (Hp _ Hin).
    + now injection same.
Qed.
End Lifetime.

Lemma filter_other_id (s : string) (shown : list Toast) :
  ~ In s (map toast_id shown) ->
  filter (fun toast => negb (toast_id toast =? s)) shown = shown.
Proof.
  induction shown as [|toast shown IH]; intro absent; simpl; [reflexivity|].
  destruct (String.eqb_spec (toast_id toast) s) as [hit|_]; simpl.
  - exfalso. apply absent. left. exact hit.
  - f_equal. apply IH. intro Hin. apply absent. right. exact Hin.
Qed.

(** C8.  Let [uuidv4] return no id twice, and take any state reached from
    the empty form.  [showToast] puts the new toast at the end of the queue,
    under an id that no toast of the queue has, and registers one callback,
    due 5000 ms later, for that id.  Whatever happens next, the toast is on
    screen while the clock is short of the deadline and no toast has its id
    from the deadline on: it is there after 4999 ms and gone after 5001 ms.
    A later toast with the same text and kind has another id and lives to its
    own deadline, and running the callback of either leaves the other. *)
Theorem showToast_lifetime :
  forall host : Host,
    freshIds host ->
    forall (before : list Event) (message : string) (type : ToastType),
      let w := run host before initialWorld in
      let pushed := exec (showToast host message type) w in
      let toast := mkToast (uuidv4 host (uuidCalls w)) message type in
      toasts pushed = toasts w ++ [toast] /\
      ~ In (toast_id toast) (map toast_id (toasts w)) /\
      timers pushed = timers w ++ [((clock w + 5000)%N, toast_id toast)] /\
      (forall next : list Event,
         let w' := run host next pushed in
         ((clock w' < clock w + 5000)%N -> In toast (toasts w')) /\
         ((clock w + 5000 <= clock w')%N ->
            ~ In (toast_id toast) (map toast_id (toasts w')))) /\
      In toast (toasts (elapse 4999 pushed)) /\
      ~ In (toast_id toast) (map toast_id (toasts (elapse 5001 pushed))) /\
      (forall between : list Event,
         let later := run host between pushed in
         let again := exec (showToast host message type) later in
         let twin := mkToast (uuidv4 host (uuidCalls later)) message type in
         toast_id twin <> toast_id toast /\
         toasts (expire (toast_id toast) again) =
           filter (fun shown => negb (toast_id shown =? toast_id toast)) (toasts later)
           ++ [twin] /\
         toasts (expire (toast_id twin) again) = toasts later /\
         forall next : list Event,
           let w' := run host next again in
           ((clock w' < clock w + 5000)%N -> In toast (toasts w')) /\
           ((clock w + 5000 <= clock w')%N ->
              ~ In (toast_id toast) (map toast_id (toasts w'))) /\
           ((clock w' < clock later + 5000)%N -> In twin (toasts w')) /\
           ((clock later + 5000 <= clock w')%N ->
              ~ In (toast_id twin) (map toast_id (toasts w')))).
Proof.
  intros host fresh before message type w pushed toast.
  assert (sound : toastIdsSound host w)
    by apply toastIdsSound_run, toastIdsSound_initial.
  assert (born : lifeOf host (uuidCalls w) (clock w + 5000) toast pushed)
    by apply (lifeOf_born host fresh message type w sound).
  assert (unseen : forall v : World,
            toastIdsSound host v ->
            ~ In (uuidv4 host (uuidCalls v)) (map toast_id (toasts v))).
  { intros v [Hv _] Hin. apply in_map_iff in Hin as (shown & same & Hin).
    apply (fresh_not_issued host v fresh). rewrite <- same. apply Hv, Hin. }
  assert (lives : forall next : list Event,
            let w' := run host next pushed in
            ((clock w' < clock w + 5000)%N -> In toast (toasts w')) /\
            ((clock w + 5000 <= clock w')%N ->
               ~ In (toast_id toast) (map toast_id (toasts w')))).
  { intro next. apply (lifeOf_screen host (uuidCalls w)); [reflexivity|].
    apply lifeOf_run; [exact fresh | reflexivity | exact born]. }
  split; [reflexivity|]. split; [exact (unseen w sound)|]. split; [reflexivity|].
  split; [exact lives|].
  split; [apply (lives [Elapse 4999]); simpl; rewrite elapse_fields; simpl; lia|].
  split; [apply (lives [Elapse 5001]); simpl; rewrite elapse_fields; simpl; lia|].
  intros between later again twin.
  assert (sound' : toastIdsSound host later).
  { apply toastIdsSound_run.
    apply (toastIdsSound_pushed host w); [apply showToast_pushedFrom | exact sound]. }
  assert (life : lifeOf host (uuidCalls w) (clock w + 5000) toast later)
    by (apply lifeOf_run; [exact fresh | reflexivity | exact born]).
  assert (distinct : toast_id twin <> toast_id toast).
  { simpl. intro same. apply fresh in same. destruct life as [Hk _]. lia. }
  split; [exact distinct|]. split; [|split].
  - simpl. rewrite filter_app. simpl.
    destruct (String.eqb_spec (uuidv4 host (uuidCalls later)) (uuidv4 host (uuidCalls w)))
      as [same|_]; [exfalso; exact (distinct same) | reflexivity].
  - simpl. rewrite filter_app. simpl. rewrite String.eqb_refl. simpl.
    rewrite app_nil_r. apply filter_other_id. exact (unseen later sound').
  - intro next. cbv zeta.
    pose proof (lifeOf_pushed host fresh (uuidCalls w) (clock w + 5000) toast
                  later again (showToast_pushedFrom host message type later) life)
      as life'.
    pose proof (lifeOf_born host fresh message type later sound') as born'.
    destruct (lifeOf_screen host (uuidCalls w) (clock w + 5000) toast eq_refl _
                (lifeOf_run host fresh _ _ toast eq_refl next again life'))
      as [on off].
    destruct (lifeOf_screen host (uuidCalls later) (clock later + 5000) twin eq_refl _
                (lifeOf_run host fresh _ _ twin eq_refl next again born'))
      as [on' off'].
    repeat split; assumption.
Qed.

Lemma showToast_lifetime_sample :
  freshIds sampleHost /\
  let pushed := exec (showToast sampleHost "Saved" success) initialWorld in
  In (mkToast "u" "Saved" success) (toasts (elapse 4999 pushed)) /\
  ~ In "u" (map toast_id (toasts (elapse 5001 pushed))).
Proof.
  split; [exact sampleHost_freshIds|].
  pose proof (showToast_lifetime sampleHost sampleHost_freshIds [] "Saved" success)
    as life.
  cbv zeta in life. destruct life as (_ & _ & _ & _ & on & off & _).
  split; [exact on | exact off].
Defined.

(** Two toasts with one text, shown 2000 ms apart: each goes at its own
    time. *)
Example twin_toasts :
  let w := run sampleHost [Download; Elapse 2000; Download] initialWorld in
  map toast_message (toasts w) =
    ["Company name is required"; "Company name is required"] /\
  map toast_id (toasts (elapse 2999 w)) = ["u"; "uu"] /\
  map toast_id (toasts (elapse 3000 w)) = ["uu"] /\
  map toast_id (toasts (elapse 4999 w)) = ["uu"] /\
  map toast_id (toasts (elapse 5000 w)) = [].
Proof. repeat split. Qed.

(** ** The first failing rule *)

Lemma numbersAreNumbers_react (host : Host) (e : Event) (w : World) :
  entersNumber e = true ->
  numbersAreNumbers (lineItems w) -> numbersAreNumbers (lineItems (react host e w)).
Proof.
  unfold numbersAreNumbers. intros enters numbers. destruct e; simpl; try exact numbers.
  - apply Forall_app. split; [exact numbers|].
    constructor; [split; reflexivity | constructor].
  - apply Forall_forall. intros item Hin. apply in_map_iff in Hin as (old & <- & Hin).
    pose proof (proj1 (Forall_forall _ _) numbers old Hin) as [q p].
    destruct (id old =? id0); [|split; assumption].
    destruct u; simpl; simpl in enters; try (split; assumption);
      apply negb_true_iff in enters; split; assumption.
  - apply Forall_forall. intros item Hin. apply filter_In in Hin as [Hin _].
    exact (proj1 (Forall_forall _ _) numbers item Hin).
  - destruct (handleDownload_effects host w) as (same & _). rewrite same.
    exact numbers.
  - rewrite elapse_fields. exact numbers.
Qed.

Lemma numbersAreNumbers_run (host : Host) (events : list Event) :
  Forall (fun e => entersNumber e = true) events ->
  numbersAreNumbers (lineItems (run host events initialWorld)).
Proof.
  induction events as [|e events IH] using rev_ind; intro enter.
  - constructor.
  - apply Forall_app in enter as [enter last]. rewrite run_snoc.
    apply numbersAreNumbers_react; [now inversion last | apply IH, enter].
Qed.

(** C2. In every state that the page can reach from the empty form,
    [validateForm] goes through the rules in the spec's order (company,
    customer, invoice number, date, presence of a row, then row by row
    description, quantity > 0, unit price >= 0) and reports the first one
    that fails and nothing more: it answers [true] and shows nothing when all
    hold, and otherwise answers [false] and shows one error toast with the
    message of the first failing rule.  When the company name is missing,
    whether or not the customer name is missing too, the reason is
    "Company name is required". *)
Theorem validateForm_first_failing_rule :
  forall (host : Host) (events : list Event),
    Forall (fun e => entersNumber e = true) events ->
    let w := run host events initialWorld in
    validateForm host w = reported host w (firstFailure (rules w)) /\
    (isFalsy (trim (companyName w)) = true ->
     validateForm host w =
       (false, exec (showToast host "Company name is required" error) w)).
Proof.
  intros host events enter w.
  assert (first : validateForm host w = reported host w (firstFailure (rules w)))
    by (apply validateForm_firstFailure, numbersAreNumbers_run; exact enter).
  split; [exact first|]. intro missing. rewrite first.
  unfold rules, headerRules. simpl. rewrite missing. reflexivity.
Qed.

Lemma validateForm_first_failing_rule_sample :
  let events :=
    [EditCompanyName "Acme"; EditCustomerName "Bob"; EditInvoiceNumber "INV-001";
     EditInvoiceDate "2024-01-01"; AddLineItem;
     UpdateLineItem "u" (SetDescription "Widget");
     UpdateLineItem "u" (SetUnitPrice 10%float)] in
  Forall (fun e => entersNumber e = true) events /\
  let w := run sampleHost events initialWorld in
  validateForm sampleHost w =
    (false,
     exec (showToast sampleHost "All items must have a quantity greater than 0" error) w).
Proof.
  cbv zeta.
  assert (enter : Forall (fun e => entersNumber e = true)
            [EditCompanyName "Acme"; EditCustomerName "Bob";
             EditInvoiceNumber "INV-001"; EditInvoiceDate "2024-01-01"; AddLineItem;
             UpdateLineItem "u" (SetDescription "Widget");
             UpdateLineItem "u" (SetUnitPrice 10%float)])
    by (repeat constructor).
  split; [exact enter|].
  rewrite (proj1 (validateForm_first_failing_rule sampleHost _ enter)).
  reflexivity.
Defined.

(** * Further properties *)

(** ** Validation as a whole *)

Lemma firstFailure_None (rs : list Rule) :
  firstFailure rs = None <-> Forall (fun r => fst r = true) rs.
Proof.
  induction rs as [|[holds message] rs IH]; simpl.
  - split; [constructor | reflexivity].
  - destruct holds; split.
    + intro H. constructor; [reflexivity | apply IH, H].
    + intro H. apply IH. now inversion H.
    + discriminate.
    + intro H. inversion H as [|r rest first _]. discriminate first.
Qed.

Lemma itemRulesTested_pass (items : list LineItem) :
  Forall (fun r : Rule => fst r = true) (flat_map itemRulesTested items) <->
  Forall itemPasses items.
Proof.
  induction items as [|item items IH]; simpl.
  - split; constructor.
  - unfold itemPasses at 1. split.
    + intro H. inversion H as [|? ? d H1]; subst. inversion H1 as [|? ? q H2]; subst.
      inversion H2 as [|? ? p H3]; subst. simpl in d, q, p.
      apply negb_true_iff in d, q, p. constructor; [tauto | apply IH, H3].
    + intro H. inversion H as [|? ? (d & q & p) rest]; subst.
      repeat constructor; simpl; try (apply negb_true_iff; assumption).
      apply IH, rest.
Qed.

Lemma rulesTested_pass (w : World) :
  firstFailure (rulesTested w) = None <-> formPasses w.
Proof.
  rewrite firstFailure_None. unfold rulesTested, formPasses.
  rewrite Forall_app, itemRulesTested_pass. unfold headerRules. split.
  - intros [H rows].
    inversion H as [|? ? c H1]; subst. inversion H1 as [|? ? u H2]; subst.
    inversion H2 as [|? ? n H3]; subst. inversion H3 as [|? ? d H4]; subst.
    inversion H4 as [|? ? i _]; subst. simpl in c, u, n, d, i.
    apply negb_true_iff in c, u, n, d, i. repeat split; try assumption.
    intro none. rewrite none in i. discriminate i.
  - intros (c & u & n & d & i & rows). split; [|exact rows].
    repeat constructor; simpl; apply negb_true_iff; try assumption.
    destruct (lineItems w); [contradiction | reflexivity].
Qed.

Lemma validateForm_passes_iff (host : Host) (w : World) :
  fst (validateForm host w) = true <-> formPasses w.
Proof.
  rewrite validateForm_firstFailure_tested, <- rulesTested_pass.
  destruct (firstFailure (rulesTested w)); simpl; split;
    (discriminate || reflexivity).
Qed.

(** X1. [validateForm] answers [true] exactly when company, customer and
    invoice number are not blank, the date is not empty, there is a row, and
    every row has a description that is not blank, a quantity that is not
    [<= 0] and a unit price that is not [< 0]; it then leaves the state as it
    is.  Otherwise it answers [false] and the only change is one error toast
    with its callback. *)
Theorem validateForm_verdict :
  forall (host : Host) (w : World),
    (fst (validateForm host w) = true <-> formPasses w) /\
    (formPasses w -> validateForm host w = (true, w)) /\
    (~ formPasses w ->
       exists message : string,
         validateForm host w = (false, exec (showToast host message error) w)).
Proof.
  intros host w. rewrite validateForm_firstFailure_tested.
  pose proof (rulesTested_pass w) as pass.
  destruct (firstFailure (rulesTested w)) as [message|]; simpl.
  - assert (fails : ~ formPasses w).
    { intro ok. apply pass in ok. discriminate ok. }
    split; [split; [discriminate | intro ok; contradiction]|].
    split; [intro ok; contradiction|]. intros _. exists message. reflexivity.
  - assert (ok : formPasses w) by (apply pass; reflexivity).
    split; [split; [intros _; exact ok | reflexivity]|].
    split; [reflexivity | intro fails; contradiction].
Qed.

(** X2. A row that has just been added makes the form invalid: whatever
    the state, after [addLineItem] the list ends with a row of empty
    description, quantity 0 and unit price 0, [validateForm] answers [false],
    and an export saves nothing. *)
Theorem addLineItem_blocks_export :
  forall (host : Host) (w : World),
    let w' := exec (addLineItem host) w in
    lineItems w' =
      lineItems w ++ [mkLineItem (uuidv4 host (uuidCalls w)) "" 0%float 0%float] /\
    fst (validateForm host w') = false /\
    downloads (exec (handleDownload host) w') = downloads w.
Proof.
  intros host w w'.
  assert (invalid : fst (validateForm host w') = false).
  { destruct (fst (validateForm host w')) eqn:verdict; [|reflexivity].
    apply validateForm_passes_iff in verdict.
    destruct verdict as (_ & _ & _ & _ & _ & rows).
    subst w'. simpl in rows. apply Forall_app in rows as [_ last].
    inversion last as [|? ? (blank & _) _]. discriminate blank. }
  split; [reflexivity|]. split; [exact invalid|].
  rewrite exec_handleDownload. cbv zeta. rewrite invalid.
  destruct (validateForm_false host w' invalid) as [message Hv]. rewrite Hv.
  reflexivity.
Qed.

(** ** How the store operations compose *)

Lemma exec_updateLineItem (id0 : string) (u : FieldUpdate) (w : World) :
  exec (updateLineItem id0 u) w =
  setLineItems
    (map (fun item => if id item =? id0 then assignField item u else item)
         (lineItems w)) w.
Proof. reflexivity. Qed.

Lemma exec_removeLineItem (id0 : string) (w : World) :
  exec (removeLineItem id0) w =
  setLineItems (filter (fun item => negb (id item =? id0)) (lineItems w)) w.
Proof. reflexivity. Qed.

Lemma setLineItems_twice (l1 l2 : list LineItem) (w : World) :
  setLineItems l2 (setLineItems l1 w) = setLineItems l2 w.
Proof. reflexivity. Qed.

Lemma assignField_id (item : LineItem) (u : FieldUpdate) :
  writesId u = false -> id (assignField item u) = id item.
Proof. destruct u; simpl; (discriminate || reflexivity). Qed.

(** X3. [updateLineItem] is idempotent: the same call made a second time
    changes nothing, whichever the field, [id] included. *)
Theorem updateLineItem_idempotent :
  forall (w : World) (id0 : string) (u : FieldUpdate),
    exec (updateLineItem id0 u) (exec (updateLineItem id0 u) w) =
    exec (updateLineItem id0 u) w.
Proof.
  intros w id0 u. rewrite !exec_updateLineItem. simpl.
  rewrite setLineItems_twice. f_equal.
  rewrite map_map. apply map_ext. intro item.
  destruct (String.eqb_spec (id item) id0) as [hit|miss].
  - destruct u as [value| | |]; simpl; try (rewrite (proj2 (String.eqb_eq _ _) hit));
      try reflexivity.
    destruct (value =? id0); reflexivity.
  - rewrite (proj2 (String.eqb_neq _ _) miss). reflexivity.
Qed.

(** X4. The last write wins: of two calls of [updateLineItem] for the
    same id and the same field, other than [id], only the second counts. *)
Theorem updateLineItem_last_write_wins :
  forall (w : World) (id0 : string) (u1 u2 : FieldUpdate),
    sameField u1 u2 = true ->
    writesId u2 = false ->
    exec (updateLineItem id0 u2) (exec (updateLineItem id0 u1) w) =
    exec (updateLineItem id0 u2) w.
Proof.
  intros w id0 u1 u2 same keeps. rewrite !exec_updateLineItem. simpl.
  rewrite setLineItems_twice. f_equal.
  rewrite map_map. apply map_ext. intro item.
  destruct (String.eqb_spec (id item) id0) as [hit|miss].
  - destruct u1, u2; try discriminate same; try discriminate keeps; simpl;
      rewrite (proj2 (String.eqb_eq _ _) hit); reflexivity.
  - rewrite (proj2 (String.eqb_neq _ _) miss). reflexivity.
Qed.

Lemma updateLineItem_last_write_sample :
  let w := setLineItems [mkLineItem "a" "Nut" 1%float 2%float] initialWorld in
  sameField (SetQuantity 3%float) (SetQuantity 7%float) = true /\
  writesId (SetQuantity 7%float) = false /\
  lineItems (exec (updateLineItem "a" (SetQuantity 7%float))
               (exec (updateLineItem "a" (SetQuantity 3%float)) w))
  = [mkLineItem "a" "Nut" 7%float 2%float].
Proof.
  cbv zeta. split; [reflexivity|]. split; [reflexivity|].
  rewrite (updateLineItem_last_write_wins _ "a" (SetQuantity 3%float)
             (SetQuantity 7%float) eq_refl eq_refl).
  reflexivity.
Defined.

(** With the field [id] the first write moves the row out of reach of the
    second. *)
Example updateLineItem_id_first_write_stays :
  lineItems (exec (updateLineItem "a" (SetId "c"))
               (exec (updateLineItem "a" (SetId "b"))
                  (setLineItems [mkLineItem "a" "Nut" 1%float 2%float] initialWorld)))
  = [mkLineItem "b" "Nut" 1%float 2%float].
Proof. reflexivity. Qed.

(** X5. Calls of [updateLineItem] for two different ids commute, as long as
    neither writes the field [id]. *)
Theorem updateLineItem_commute :
  forall (w : World) (id1 id2 : string) (u1 u2 : FieldUpdate),
    id1 <> id2 ->
    writesId u1 = false ->
    writesId u2 = false ->
    exec (updateLineItem id2 u2) (exec (updateLineItem id1 u1) w) =
    exec (updateLineItem id1 u1) (exec (updateLineItem id2 u2) w).
Proof.
  intros w id1 id2 u1 u2 apart keeps1 keeps2. rewrite !exec_updateLineItem. simpl.
  rewrite !setLineItems_twice. f_equal.
  rewrite !map_map. apply map_ext. intro item.
  destruct (id item =? id1) eqn:one; destruct (id item =? id2) eqn:two;
    rewrite ?(assignField_id item u1 keeps1), ?(assignField_id item u2 keeps2),
      ?one, ?two; try reflexivity.
  exfalso. apply apart. apply String.eqb_eq in one, two. congruence.
Qed.

Lemma updateLineItem_commute_sample :
  let w := setLineItems [mkLineItem "a" "Nut" 1%float 2%float;
                         mkLineItem "b" "Bolt" 1%float 5%float] initialWorld in
  "a" <> "b" /\
  exec (updateLineItem "b" (SetUnitPrice 6%float))
    (exec (updateLineItem "a" (SetQuantity 3%float)) w) =
  exec (updateLineItem "a" (SetQuantity 3%float))
    (exec (updateLineItem "b" (SetUnitPrice 6%float)) w).
Proof.
  cbv zeta.
  assert (apart : "a" <> "b") by discriminate.
  split; [exact apart|].
  exact (updateLineItem_commute _ "a" "b" (SetQuantity 3%float)
           (SetUnitPrice 6%float) apart eq_refl eq_refl).
Defined.

Lemma filter_id_twice (id1 id2 : string) (items : list LineItem) :
  filter (fun item => negb (id item =? id2))
    (filter (fun item => negb (id item =? id1)) items) =
  filter (fun item => negb (id item =? id1))
    (filter (fun item => negb (id item =? id2)) items).
Proof.
  induction items as [|item items IH]; simpl; [reflexivity|].
  destruct (id item =? id1) eqn:one; destruct (id item =? id2) eqn:two; simpl;
    rewrite ?one, ?two; simpl; rewrite IH; reflexivity.
Qed.

Lemma filter_id_gone (id0 : string) (items : list LineItem) :
  forall item, In item (filter (fun item => negb (id item =? id0)) items) ->
               id item <> id0.
Proof.
  intros item Hin. apply filter_In in Hin as [_ kept].
  apply negb_true_iff in kept. apply String.eqb_neq. exact kept.
Qed.

(** X6. [removeLineItem] is idempotent, two removals commute, and
    after the removal of an id an update for that id changes nothing. *)
Theorem removeLineItem_compose :
  forall (w : World) (id1 id2 : string) (u : FieldUpdate),
    exec (removeLineItem id1) (exec (removeLineItem id1) w) =
      exec (removeLineItem id1) w /\
    exec (removeLineItem id2) (exec (removeLineItem id1) w) =
      exec (removeLineItem id1) (exec (removeLineItem id2) w) /\
    exec (updateLineItem id1 u) (exec (removeLineItem id1) w) =
      exec (removeLineItem id1) w.
Proof.
  intros w id1 id2 u.
  rewrite !exec_removeLineItem, !exec_updateLineItem. simpl.
  rewrite !setLineItems_twice. repeat split; f_equal.
  - apply filter_absent_id, filter_id_gone.
  - apply filter_id_twice.
  - apply map_absent_id, filter_id_gone.
Qed.

(** X7. Removing the row that was just added undoes the addition: in every
    state reached from the empty form without writes to the field [id], and
    with [uuidv4] returning no id twice, [addLineItem] followed by
    [removeLineItem] of the new id gives back the list of rows. *)
Theorem removeLineItem_undoes_addLineItem :
  forall host : Host,
    freshIds host ->
    forall events : list Event,
      Forall (fun e => leavesIds e = true) events ->
      let w := run host events initialWorld in
      let newId := uuidv4 host (uuidCalls w) in
      lineItems (exec (removeLineItem newId) (exec (addLineItem host) w)) =
      lineItems w.
Proof.
  intros host fresh events leave w newId.
  destruct (rowIdsSound_run host events fresh leave) as [_ sound].
  rewrite exec_removeLineItem. simpl. rewrite filter_app. simpl.
  fold newId. rewrite String.eqb_refl. simpl. rewrite app_nil_r.
  apply filter_absent_id. intros item Hin same.
  apply (fresh_not_issued host w fresh). fold newId. rewrite <- same.
  apply sound. apply in_map. exact Hin.
Qed.

Lemma removeLineItem_undoes_addLineItem_sample :
  freshIds sampleHost /\
  let events := [AddLineItem; UpdateLineItem "u" (SetDescription "Nut")] in
  Forall (fun e => leavesIds e = true) events /\
  let w := run sampleHost events initialWorld in
  lineItems (exec (removeLineItem "uu") (exec (addLineItem sampleHost) w)) =
  lineItems w.
Proof.
  split; [exact sampleHost_freshIds|]. cbv zeta.
  assert (leave : Forall (fun e => leavesIds e = true)
                    [AddLineItem; UpdateLineItem "u" (SetDescription "Nut")])
    by (repeat constructor).
  split; [exact leave|].
  exact (removeLineItem_undoes_addLineItem sampleHost sampleHost_freshIds _ leave).
Defined.

(** ** What the totals depend on *)

Lemma calculateSubtotal_amounts (items items' : list LineItem) :
  map (fun item => (quantity item, unitPrice item)) items =
  map (fun item => (quantity item, unitPrice item)) items' ->
  calculateSubtotal items = calculateSubtotal items'.
Proof.
  intro same. unfold calculateSubtotal. rewrite !fold_subtotalStep. f_equal.
  change (fun item => (quantity item * unitPrice item)%float)
    with (fun item => (fun qp : float * float => (fst qp * snd qp)%float)
                        ((fun item => (quantity item, unitPrice item)) item)).
  rewrite <- !(map_map (fun item => (quantity item, unitPrice item))
                       (fun qp : float * float => (fst qp * snd qp)%float)).
  rewrite same. reflexivity.
Qed.

(** X8. The totals read the quantities and the unit prices only: an
    edit of a description or of an id, of any row, leaves the subtotal, the
    tax and the total as they were. *)
Theorem totals_ignore_text_edits :
  forall (w : World) (id0 : string) (u : FieldUpdate),
    writesAmount u = false ->
    let items' := lineItems (exec (updateLineItem id0 u) w) in
    calculateSubtotal items' = calculateSubtotal (lineItems w) /\
    taxAmount items' = taxAmount (lineItems w) /\
    calculateTotal items' = calculateTotal (lineItems w).
Proof.
  intros w id0 u text items'.
  assert (same : calculateSubtotal items' = calculateSubtotal (lineItems w)).
  { apply calculateSubtotal_amounts. subst items'. rewrite lineItems_updateLineItem.
    rewrite map_map. apply map_ext. intro item.
    destruct (id item =? id0); [|reflexivity].
    destruct u; try discriminate text; reflexivity. }
  unfold taxAmount, calculateTotal. rewrite same. repeat split.
Qed.

Lemma totals_ignore_text_edits_sample :
  writesAmount (SetDescription "Washer") = false /\
  calculateTotal
    (lineItems (exec (updateLineItem "u" (SetDescription "Washer")) scenarioA))
  = 22%float.
Proof.
  split; [reflexivity|].
  rewrite (proj2 (proj2 (totals_ignore_text_edits scenarioA "u"
                           (SetDescription "Washer") eq_refl))).
  reflexivity.
Defined.

(** NaN absorbs both operations. *)
Lemma add_nan_l (x : float) : (nan + x)%float = nan.
Proof.
  rewrite <- (SF2Prim_Prim2SF (nan + x)), add_spec. reflexivity.
Qed.

Lemma add_nan_r (x : float) : (x + nan)%float = nan.
Proof.
  rewrite <- (SF2Prim_Prim2SF (x + nan)), add_spec.
  change (Prim2SF nan) with S754_nan. destruct (Prim2SF x); reflexivity.
Qed.

Lemma mul_nan_l (x : float) : (nan * x)%float = nan.
Proof.
  rewrite <- (SF2Prim_Prim2SF (nan * x)), mul_spec. reflexivity.
Qed.

Lemma mul_nan_r (x : float) : (x * nan)%float = nan.
Proof.
  rewrite <- (SF2Prim_Prim2SF (x * nan)), mul_spec.
  change (Prim2SF nan) with S754_nan. destruct (Prim2SF x); reflexivity.
Qed.

Lemma fold_subtotalStep_nan (items : list LineItem) :
  fold_left subtotalStep items nan = nan.
Proof.
  induction items as [|item items IH]; simpl; [reflexivity|].
  unfold subtotalStep at 2. rewrite add_nan_l. exact IH.
Qed.

Lemma fold_subtotalStep_poisoned (items : list LineItem) (acc : float) :
  (exists item, In item items /\ (quantity item = nan \/ unitPrice item = nan)) ->
  fold_left subtotalStep items acc = nan.
Proof.
  revert acc. induction items as [|item items IH]; intros acc (bad & Hin & broken).
  - destruct Hin.
  - simpl. destruct Hin as [<-|Hin].
    + unfold subtotalStep at 2.
      destruct broken as [-> | ->];
        rewrite ?mul_nan_l, ?mul_nan_r, add_nan_r; apply fold_subtotalStep_nan.
    + apply IH. exists bad. split; [exact Hin | exact broken].
Qed.

(** X9. One NaN spoils every total: if some row has NaN for its
    quantity or for its unit price, then the subtotal, the tax and the total
    are NaN, whatever the other rows hold. *)
Theorem nan_row_spoils_totals :
  forall items : list LineItem,
    (exists item, In item items /\ (quantity item = nan \/ unitPrice item = nan)) ->
    calculateSubtotal items = nan /\
    taxAmount items = nan /\
    calculateTotal items = nan.
Proof.
  intros items broken.
  assert (spoiled : calculateSubtotal items = nan)
    by (apply fold_subtotalStep_poisoned; exact broken).
  unfold taxAmount, calculateTotal. rewrite spoiled.
  repeat split; rewrite ?mul_nan_l, ?add_nan_l; reflexivity.
Qed.

Lemma nan_row_spoils_totals_sample :
  calculateSubtotal [mkLineItem "a" "Nut" 1%float 2%float;
                     mkLineItem "b" "Bolt" nan 5%float] = nan.
Proof.
  apply (nan_row_spoils_totals
           [mkLineItem "a" "Nut" 1%float 2%float; mkLineItem "b" "Bolt" nan 5%float]).
  exists (mkLineItem "b" "Bolt" nan 5%float).
  split; [right; left; reflexivity | left; reflexivity].
Defined.

(** ** The queue of toasts over time *)

Lemma KeepsOrder_refl {A : Type} (l : list A) : KeepsOrder l l.
Proof. induction l; constructor; assumption. Qed.

Lemma KeepsOrder_trans {A : Type} (l2 l3 : list A) :
  KeepsOrder l2 l3 -> forall l1, KeepsOrder l1 l2 -> KeepsOrder l1 l3.
Proof.
  induction 1 as [|x kept all _ IH|x kept all _ IH]; intros l1 inner.
  - exact inner.
  - inversion inner; subst; constructor; apply IH; assumption.
  - constructor. apply IH. exact inner.
Qed.

Lemma KeepsOrder_In {A : Type} (kept all : list A) :
  KeepsOrder kept all -> forall x, In x kept -> In x all.
Proof.
  induction 1 as [|x kept all _ IH|x kept all _ IH]; intros y Hin.
  - exact Hin.
  - destruct Hin as [<-|Hin]; [left; reflexivity | right; apply IH, Hin].
  - right. apply IH, Hin.
Qed.

Lemma KeepsOrder_map {A B : Type} (f : A -> B) (kept all : list A) :
  KeepsOrder kept all -> KeepsOrder (map f kept) (map f all).
Proof. induction 1; simpl; constructor; assumption. Qed.

Lemma KeepsOrder_NoDup {A : Type} (kept all : list A) :
  KeepsOrder kept all -> NoDup all -> NoDup kept.
Proof.
  induction 1 as [|x kept all sub IH|x kept all _ IH]; intro unique.
  - exact unique.
  - inversion unique as [|? ? notin rest]; subst. constructor.
    + intro Hin. apply notin. apply (KeepsOrder_In kept all sub), Hin.
    + apply IH, rest.
  - inversion unique; subst. apply IH. assumption.
Qed.

Lemma expired_KeepsOrder (due : list (N * string)) (shown : list Toast) :
  KeepsOrder (expired due shown) shown.
Proof.
  revert shown. induction due as [|timer due IH]; intro shown.
  - apply KeepsOrder_refl.
  - unfold expired in *. simpl.
    eapply KeepsOrder_trans; [apply filter_KeepsOrder | apply IH].
Qed.

Lemma toastKeysSound_react (host : Host) (e : Event) (w : World) :
  freshIds host -> toastKeysSound host w -> toastKeysSound host (react host e w).
Proof.
  intros fresh [unique sound]. pose proof (react_cases host e w) as shape.
  assert (quiet : quietFrom w (react host e w) -> toastKeysSound host (react host e w)).
  { intros (calls & _ & shown & _). split; rewrite shown; [exact unique|].
    intros toast Hin. apply (issued_mono host w); [exact calls | apply sound, Hin]. }
  destruct e; try (apply quiet; exact shape).
  - destruct shape as (calls & _ & message & type & shown & _). split; rewrite shown.
    + rewrite map_app. simpl. apply NoDup_app; repeat split.
      * exact unique.
      * constructor; [intros [] | constructor].
      * intros s Hs [<-|[]]. apply in_map_iff in Hs as (toast & same & Hin).
        apply (fresh_not_issued host w fresh). rewrite <- same. apply sound, Hin.
    + intros toast Hin. apply in_app_or in Hin as [Hin|[<-|[]]].
      * apply (issued_mono host w); [rewrite calls; apply le_S, le_n | apply sound, Hin].
      * exists (uuidCalls w). rewrite calls. split; [apply le_n | reflexivity].
  - rewrite shape, elapse_fields. split; simpl.
    + apply (KeepsOrder_NoDup _ (map toast_id (toasts w))); [|exact unique].
      apply KeepsOrder_map, expired_KeepsOrder.
    + intros toast Hin. apply In_expired in Hin as [Hin _].
      destruct (sound toast Hin) as (k & Hk & same). exists k. split; assumption.
Qed.

(** X10. With [uuidv4] returning no id twice, in every state reached from
    the empty form the toasts on screen have pairwise distinct ids, and so
    do the keys of the elements that show them. *)
Theorem toast_keys_unique :
  forall host : Host,
    freshIds host ->
    forall events : list Event,
      let w := run host events initialWorld in
      NoDup (map toast_id (toasts w)) /\
      NoDup (map toast_key (page_toasts (renderPage host w))).
Proof.
  intros host fresh events w.
  assert (sound : toastKeysSound host w).
  { subst w. induction events as [|e events IH] using rev_ind.
    - split; [constructor | intros toast []].
    - rewrite run_snoc. apply toastKeysSound_react; assumption. }
  destruct sound as [unique _]. split; [exact unique|].
  simpl. rewrite map_map. exact unique.
Qed.

Lemma toast_keys_unique_sample :
  freshIds sampleHost /\
  NoDup (map toast_id
           (toasts (run sampleHost [Download; Elapse 100; Download] initialWorld))).
Proof.
  split; [exact sampleHost_freshIds|].
  exact (proj1 (toast_keys_unique sampleHost sampleHost_freshIds
                  [Download; Elapse 100; Download])).
Defined.

Lemma toastsTimed_react (host : Host) (e : Event) (w : World) :
  toastsTimed w -> toastsTimed (react host e w).
Proof.
  intro timed. pose proof (react_cases host e w) as shape.
  assert (quiet : quietFrom w (react host e w) -> toastsTimed (react host e w)).
  { intros (_ & time & shown & pending). unfold toastsTimed.
    rewrite time, shown, pending. exact timed. }
  destruct e; try (apply quiet; exact shape).
  - destruct shape as (_ & time & message & type & shown & pending).
    unfold toastsTimed. rewrite time, shown, pending.
    intros toast Hin. apply in_app_or in Hin as [Hin|[<-|[]]].
    + destruct (timed toast Hin) as (due & Hdue & soon).
      exists due. split; [apply in_or_app; left; exact Hdue | exact soon].
    + exists (clock w + 5000)%N. split; [|lia].
      apply in_or_app. right. left. reflexivity.
  - rewrite shape, elapse_fields. unfold toastsTimed. simpl.
    intros toast Hin. apply In_expired in Hin as [Hin spared].
    destruct (timed toast Hin) as (due & Hdue & soon).
    exists due. split; [|lia]. apply filter_In. split; [exact Hdue|]. simpl.
    destruct (N.leb_spec due (clock w + ms)) as [fell|_]; [|reflexivity].
    exfalso. apply (spared (due, toast_id toast)); [|reflexivity].
    apply filter_In. split; [exact Hdue|]. simpl. apply N.leb_le. exact fell.
Qed.

Lemma toastsTimed_run (host : Host) (events : list Event) :
  toastsTimed (run host events initialWorld).
Proof.
  induction events as [|e events IH] using rev_ind.
  - intros toast [].
  - rewrite run_snoc. apply toastsTimed_react, IH.
Qed.

(** X11. No toast outlives 5000 ms: from any state reached from the empty
    form, once 5000 ms or more pass with no other event the queue is
    empty. *)
Theorem toasts_all_expire :
  forall (host : Host) (events : list Event) (ms : N),
    (5000 <= ms)%N ->
    toasts (elapse ms (run host events initialWorld)) = [].
Proof.
  intros host events ms long.
  pose proof (toastsTimed_run host events) as timed.
  rewrite elapse_fields. simpl.
  destruct (expired _ _) as [|toast rest] eqn:left; [reflexivity|]. exfalso.
  assert (Hin : In toast (toast :: rest)) by (left; reflexivity).
  rewrite <- left in Hin. apply In_expired in Hin as [Hin spared].
  destruct (timed toast Hin) as (due & Hdue & soon).
  apply (spared (due, toast_id toast)); [|reflexivity].
  apply filter_In. split; [exact Hdue|]. simpl. apply N.leb_le. lia.
Qed.

Lemma toasts_all_expire_sample :
  toasts (elapse 5000 (run sampleHost [Download; Elapse 4000; Download] initialWorld))
  = [].
Proof.
  apply (toasts_all_expire sampleHost [Download; Elapse 4000; Download] 5000).
  discriminate.
Defined.

(** X12. The queue keeps its order, oldest first: an export puts exactly
    one toast at the end, the passing of time only takes toasts out, and no
    edit of the header or of the rows touches the queue. *)
Theorem toasts_order :
  forall (host : Host) (e : Event) (w : World),
    match e with
    | Download =>
        exists toast : Toast, toasts (react host e w) = toasts w ++ [toast]
    | Elapse _ => KeepsOrder (toasts (react host e w)) (toasts w)
    | _ => toasts (react host e w) = toasts w
    end.
Proof.
  intros host e w. pose proof (react_cases host e w) as shape.
  destruct e; try (destruct shape as (_ & _ & shown & _); exact shown).
  - destruct shape as (_ & _ & message & type & shown & _).
    eexists. exact shown.
  - rewrite shape, elapse_fields. simpl. apply expired_KeepsOrder.
Qed.

(** ** Saved files *)

Lemma react_downloads (host : Host) (e : Event) (w : World) :
  downloads (react host e w) = downloads w \/
  (e = Download /\ fst (validateForm host w) = true /\
   downloads (react host e w) = downloads w ++ [("invoice.pdf", renderInvoice host w)]).
Proof.
  destruct e; simpl; try (left; reflexivity).
  - rewrite exec_handleDownload. cbv zeta.
    destruct (fst (validateForm host w)) eqn:verdict.
    + right. rewrite (validateForm_true host w verdict). repeat split.
    + left. destruct (validateForm_false host w verdict) as [message Hv].
      rewrite Hv. reflexivity.
  - left. rewrite elapse_fields. reflexivity.
Qed.

(** X13. Files are only ever added, one per successful export, and every
    file saved in a state reached from the empty form is called invoice.pdf
    and holds the document of a state that passed [validateForm]: nothing is
    saved from a form that fails validation. *)
Theorem saved_files_valid :
  forall (host : Host) (events : list Event),
    let w := run host events initialWorld in
    savedFromValid host w /\
    forall e : Event,
      downloads (react host e w) = downloads w \/
      (e = Download /\ formPasses w /\
       downloads (react host e w) =
         downloads w ++ [("invoice.pdf", renderInvoice host w)]).
Proof.
  intros host events w. split.
  - subst w. induction events as [|e events IH] using rev_ind.
    + intros name doc [].
    + rewrite run_snoc. set (w := run host events initialWorld) in *.
      unfold savedFromValid in *.
      destruct (react_downloads host e w) as [same|(_ & valid & more)];
        [rewrite same|rewrite more]; intros name doc Hin.
      * apply IH, Hin.
      * apply in_app_or in Hin as [Hin|[saved|[]]]; [apply IH, Hin|].
        injection saved as <- <-. split; [reflexivity|].
        exists w. split; [exact valid | reflexivity].
  - intro e. destruct (react_downloads host e w) as [same|(which & valid & more)].
    + left. exact same.
    + right. split; [exact which|]. split; [|exact more].
      apply validateForm_passes_iff in valid. exact valid.
Qed.

Lemma react_draft_quiet (host : Host) (w : World) :
  draft (exec (validateForm host) w) = draft w /\
  draft (exec (handleDownload host) w) = draft w.
Proof.
  assert (checked : draft (exec (validateForm host) w) = draft w).
  { unfold exec. rewrite validateForm_firstFailure_tested.
    destruct (firstFailure (rulesTested w)); reflexivity. }
  split; [exact checked|].
  rewrite exec_handleDownload. cbv zeta.
  destruct (fst (validateForm host w)); [|exact checked].
  rewrite <- checked. reflexivity.
Qed.

(** X14. Neither validation, nor an export, nor a toast, nor the passing
    of time ever changes the header or the rows. *)
Theorem draft_untouched :
  forall (host : Host) (w : World),
    draft (exec (validateForm host) w) = draft w /\
    draft (exec (handleDownload host) w) = draft w /\
    (forall message type, draft (exec (showToast host message type) w) = draft w) /\
    (forall ms, draft (elapse ms w) = draft w).
Proof.
  intros host w. destruct (react_draft_quiet host w) as [checked exported].
  split; [exact checked|]. split; [exact exported|]. split.
  - intros message type. reflexivity.
  - intro ms. rewrite elapse_fields. reflexivity.
Qed.

(** ** The document and the page *)

(** X15. The document shows what the page shows: its last three lines are
    the page's subtotal, tax and total paragraphs, character for character,
    and the fourth cell of each table row is the text of the total cell of the
    corresponding row of the page. *)
Theorem document_matches_page :
  forall (host : Host) (w : World),
    let page := renderPage host w in
    exists (above : jsPDF) (finalY : float) (body : list (list string)),
      renderInvoice host w =
        above ++
        [ autoTable 80 [["Description"; "Quantity"; "Unit Price"; "Total"]] body;
          text (page_subtotal page) 140 finalY None;
          text (page_tax page) 140 (finalY + 10)%float None;
          text (page_total page) 140 (finalY + 20)%float None ] /\
      map (fun cells => nth 3 cells "") body = map row_total (page_rows page) /\
      map (fun cells => nth 0 cells "") body = map row_description (page_rows page).
Proof.
  intros host w page. unfold renderInvoice.
  match goal with
  | |- context [lastAutoTableFinalY host (?pre ++ [autoTable ?y ?h ?b])] =>
      exists pre, (lastAutoTableFinalY host (pre ++ [autoTable y h b]) + 10)%float, b
  end.
  split; [rewrite <- !app_assoc; reflexivity|].
  subst page. simpl. rewrite !map_map. split; reflexivity.
Qed.

(** X16. The table of the document has one row of four cells for each line
    item, in the order of the list, and above it the four header lines carry
    the current company, customer, invoice number and date. *)
Theorem document_layout :
  forall (host : Host) (w : World),
    exists (body : list (list string)) (below : jsPDF),
      renderInvoice host w =
        [ setFontSize 20;
          text "Invoice" 105 20 (Some center);
          setFontSize 12;
          text ("Company: " ++ companyName w)%string 20 40 None;
          text ("Customer: " ++ customerName w)%string 20 50 None;
          text ("Invoice Number: " ++ invoiceNumber w)%string 20 60 None;
          text ("Date: " ++ invoiceDate w)%string 20 70 None;
          autoTable 80 [["Description"; "Quantity"; "Unit Price"; "Total"]] body ]
        ++ below /\
      List.length below = 3 /\
      List.length body = List.length (lineItems w) /\
      Forall (fun cells => List.length cells = 4) body /\
      forall (n : nat) (item : LineItem),
        nth_error (lineItems w) n = Some item ->
        exists cells,
          nth_error body n = Some cells /\
          nth_error cells 0 = Some (description item) /\
          nth_error cells 1 = Some (numberToString host (quantity item)).
Proof.
  intros host w. unfold renderInvoice.
  match goal with
  | |- context [autoTable 80 ?h ?b] => exists b
  end.
  eexists. split; [simpl; reflexivity|]. split; [reflexivity|].
  split; [apply length_map|]. split.
  - apply Forall_forall. intros cells Hin.
    apply in_map_iff in Hin as (item & <- & _). reflexivity.
  - intros n item Hn. eexists. split.
    + rewrite nth_error_map, Hn. reflexivity.
    + split; reflexivity.
Qed.

(** ** Blank header fields *)

Lemma trimStart_head (s : string) :
  match trimStart s with
  | EmptyString => True
  | String c _ => isWhiteSpace c = false
  end.
Proof.
  induction s as [|c s IH]; simpl; [exact I|].
  destruct (isWhiteSpace c) eqn:space; [exact IH | exact space].
Qed.

(** [s.trim()] is empty exactly when [s] holds nothing but white space. *)
Lemma trim_only_white (s : string) :
  isFalsy (trim s) = true <->
  forallb isWhiteSpace (list_ascii_of_string s) = true.
Proof.
  rewrite <- trimStart_empty. unfold trim. split.
  - intro blank. destruct (trimEnd (trimStart s)) eqn:trimmed; [|discriminate blank].
    apply trimEnd_empty in trimmed. pose proof (trimStart_head s) as head.
    destruct (trimStart s) as [|c rest]; [reflexivity|].
    simpl in trimmed. rewrite head in trimmed. discriminate trimmed.
  - intros ->. reflexivity.
Qed.

(** X17. A company name, customer name or invoice number made of white
    space only counts as missing, and so does an empty date: each makes
    [validateForm] answer [false].  The date is not trimmed: a date that is not
    empty is never the reason.  A company name of white space only always
    gives the reason "Company name is required". *)
Theorem blank_fields_rejected :
  forall (host : Host) (w : World),
    let blank s := forallb isWhiteSpace (list_ascii_of_string s) = true in
    (blank (companyName w) \/ blank (customerName w) \/ blank (invoiceNumber w) \/
     invoiceDate w = "" ->
     fst (validateForm host w) = false) /\
    (blank (companyName w) ->
     validateForm host w =
       (false, exec (showToast host "Company name is required" error) w)) /\
    (invoiceDate w <> "" ->
     validateForm host w <>
       (false, exec (showToast host "Invoice date is required" error) w)).
Proof.
  intros host w blank. subst blank. cbv beta. split; [|split].
  - intro missing.
    destruct (fst (validateForm host w)) eqn:verdict; [|reflexivity].
    apply validateForm_passes_iff in verdict.
    destruct verdict as (c & u & n & d & _).
    destruct missing as [b|[b|[b|b]]].
    + apply trim_only_white in b. rewrite b in c. discriminate c.
    + apply trim_only_white in b. rewrite b in u. discriminate u.
    + apply trim_only_white in b. rewrite b in n. discriminate n.
    + rewrite b in d. discriminate d.
  - intro b. apply trim_only_white in b.
    unfold validateForm, bind, get. simpl. rewrite b. reflexivity.
  - intros dated same.
    assert (shown : map toast_message (toasts (snd (validateForm host w))) =
                    map toast_message (toasts w) ++ ["Invoice date is required"]).
    { rewrite same. simpl. rewrite map_app. reflexivity. }
    rewrite validateForm_firstFailure_tested in shown.
    unfold rulesTested, headerRules in shown. simpl in shown.
    assert (other : forall message : string,
              message <> "Invoice date is required" ->
              map toast_message (toasts (snd (reported host w (Some message)))) <>
              map toast_message (toasts w) ++ ["Invoice date is required"]).
    { intros message differs. simpl. rewrite map_app. simpl. intro Heq.
      apply app_inv_head in Heq. injection Heq as Heq. exact (differs Heq). }
    destruct (isFalsy (trim (companyName w))); simpl in shown;
      [refine (other _ _ shown); discriminate|].
    destruct (isFalsy (trim (customerName w))); simpl in shown;
      [refine (other _ _ shown); discriminate|].
    destruct (isFalsy (trim (invoiceNumber w))); simpl in shown;
      [refine (other _ _ shown); discriminate|].
    destruct (invoiceDate w) eqn:date; [exact (dated eq_refl)|]. simpl in shown.
    destruct (Nat.eqb (List.length (lineItems w)) 0); simpl in shown;
      [refine (other _ _ shown); discriminate|].
    clear - shown other. induction (lineItems w) as [|item items IH]; simpl in shown.
    + symmetry in shown. rewrite <- (app_nil_r (map toast_message (toasts w))) in shown at 2.
      apply app_inv_head in shown. discriminate shown.
    + destruct (isFalsy (trim (description item))); simpl in shown;
        [refine (other _ _ shown); discriminate|].
      destruct (quantity item <=? 0)%float; simpl in shown;
        [refine (other _ _ shown); discriminate|].
      destruct (unitPrice item <? 0)%float; simpl in shown;
        [refine (other _ _ shown); discriminate|].
      exact (IH shown).
Qed.

(** ** Callbacks and toasts *)

Lemma expired_cons (due : list (N * string)) (toast : Toast) (shown : list Toast) :
  expired due (toast :: shown) =
  if spared due toast then toast :: expired due shown else expired due shown.
Proof.
  revert toast shown. induction due as [|timer due IH]; intros toast shown.
  - reflexivity.
  - unfold expired in *. simpl. unfold spared. simpl.
    destruct (toast_id toast =? snd timer); simpl.
    + reflexivity.
    + rewrite IH. reflexivity.
Qed.

Lemma expired_filter (due : list (N * string)) (shown : list Toast) :
  expired due shown = filter (spared due) shown.
Proof.
  induction shown as [|toast shown IH]; simpl.
  - induction due as [|timer due IHd]; [reflexivity | exact IHd].
  - rewrite expired_cons, IH. reflexivity.
Qed.

Lemma NoDup_map_same {A B : Type} (f : A -> B) (l : list A) (a b : A) :
  NoDup (map f l) -> In a l -> In b l -> f a = f b -> a = b.
Proof.
  induction l as [|x l IH]; simpl; intros unique Ha Hb same; [destruct Ha|].
  inversion unique as [|? ? notin rest]; subst.
  destruct Ha as [<-|Ha]; destruct Hb as [<-|Hb].
  - reflexivity.
  - exfalso. apply notin. rewrite same. apply in_map, Hb.
  - exfalso. apply notin. rewrite <- same. apply in_map, Ha.
  - apply IH; assumption.
Qed.

(** A toast whose callback is among [all] is spared exactly when its
    callback is not picked. *)
Lemma spared_own_timer (pick : N * string -> bool) (all : list (N * string))
  (toast : Toast) (timer : N * string) :
  NoDup (map snd all) -> In timer all -> toast_id toast = snd timer ->
  spared (filter pick all) toast = negb (pick timer).
Proof.
  intros unique Hin named. unfold spared. f_equal.
  destruct (pick timer) eqn:picked.
  - apply existsb_exists. exists timer. split.
    + apply filter_In. split; assumption.
    + apply String.eqb_eq. exact named.
  - destruct (existsb _ _) eqn:found; [|reflexivity].
    apply existsb_exists in found as (other & Hother & same).
    apply filter_In in Hother as [Hother chosen]. apply String.eqb_eq in same.
    rewrite named in same.
    rewrite (NoDup_map_same snd all timer other unique Hin Hother same) in picked.
    rewrite picked in chosen. discriminate chosen.
Qed.

Lemma filter_aligned (pick : N * string -> bool) (all : list (N * string)) :
  NoDup (map snd all) ->
  forall (pending : list (N * string)) (shown : list Toast),
    incl pending all ->
    map snd pending = map toast_id shown ->
    map snd (filter (fun timer => negb (pick timer)) pending) =
    map toast_id (filter (spared (filter pick all)) shown).
Proof.
  intros unique pending. induction pending as [|timer pending IH];
    intros shown inside aligned; destruct shown as [|toast shown];
    try discriminate aligned; [reflexivity|].
  simpl in aligned. injection aligned as named rest. simpl.
  rewrite (spared_own_timer pick all toast timer unique
             (inside timer (or_introl eq_refl)) (eq_sym named)).
  assert (inside' : incl pending all)
    by (intros x Hx; apply inside; right; exact Hx).
  destruct (pick timer); simpl; rewrite (IH shown inside' rest);
    [reflexivity | now rewrite named].
Qed.

Lemma timersMatchToasts_react (host : Host) (e : Event) (w : World) :
  freshIds host ->
  timersMatchToasts host w -> timersMatchToasts host (react host e w).
Proof.
  intros fresh (aligned & unique & sound).
  pose proof (react_cases host e w) as shape.
  assert (quiet : quietFrom w (react host e w) ->
                  timersMatchToasts host (react host e w)).
  { intros (calls & _ & shown & pending). unfold timersMatchToasts.
    rewrite shown, pending. split; [exact aligned|]. split; [exact unique|].
    intros timer Hin. apply (issued_mono host w); [exact calls | apply sound, Hin]. }
  destruct e; try (apply quiet; exact shape).
  - destruct shape as (calls & _ & message & type & shown & pending).
    unfold timersMatchToasts. rewrite shown, pending, !map_app.
    cbn [map snd toast_id].
    split; [rewrite aligned; reflexivity|]. split.
    + apply NoDup_app; repeat split.
      * exact unique.
      * constructor; [intros [] | constructor].
      * intros s Hs [<-|[]]. apply in_map_iff in Hs as (timer & same & Hin).
        apply (fresh_not_issued host w fresh). rewrite <- same. apply sound, Hin.
    + intros timer Hin. apply in_app_or in Hin as [Hin|[<-|[]]].
      * apply (issued_mono host w); [rewrite calls; apply le_S, le_n | apply sound, Hin].
      * exists (uuidCalls w). rewrite calls. split; [apply le_n | reflexivity].
  - rewrite shape, elapse_fields. unfold timersMatchToasts. simpl.
    rewrite expired_filter. split; [|split].
    + apply (filter_aligned (fun timer => (fst timer <=? clock w + ms)%N)
               (timers w) unique (timers w) (toasts w)
               (incl_refl _) aligned).
    + apply (KeepsOrder_NoDup _ (map snd (timers w))); [|exact unique].
      apply KeepsOrder_map, filter_KeepsOrder.
    + intros timer Hin. apply filter_In in Hin as [Hin _].
      destruct (sound timer Hin) as (k & Hk & same). exists k. split; assumption.
Qed.

(** X18. No callback is left behind and none is missing: with [uuidv4]
    returning no id twice, in every state reached from the empty form the
    pending callbacks are exactly those of the toasts on screen, one per toast
    and in the order of the queue. *)
Theorem timers_match_toasts :
  forall host : Host,
    freshIds host ->
    forall events : list Event,
      let w := run host events initialWorld in
      map snd (timers w) = map toast_id (toasts w) /\
      List.length (timers w) = List.length (toasts w).
Proof.
  intros host fresh events w.
  assert (matched : timersMatchToasts host w).
  { subst w. induction events as [|e events IH] using rev_ind.
    - split; [reflexivity|]. split; [constructor | intros timer []].
    - rewrite run_snoc. apply timersMatchToasts_react; assumption. }
  destruct matched as (aligned & _). split; [exact aligned|].
  rewrite <- (length_map snd (timers w)), aligned. apply length_map.
Qed.

Lemma timers_match_toasts_sample :
  freshIds sampleHost /\
  let w := run sampleHost [Download; Elapse 3000; Download; Elapse 2500] initialWorld in
  map snd (timers w) = map toast_id (toasts w).
Proof.
  split; [exact sampleHost_freshIds|].
  exact (proj1 (timers_match_toasts sampleHost sampleHost_freshIds
                  [Download; Elapse 3000; Download; Elapse 2500])).
Defined.
